(** * The event correlator of the swfsm decider (package [fsm])

    A shallow embedding of [fsm/correlator.go] and the properties of the
    correlation index that the design document states about it.

    The correlator is a Go struct of four maps with methods on a pointer
    receiver.  Every method starts by calling [checkInit], dereferences
    pointers of the history event it is given and may therefore panic.
    The embedding keeps all of that:

    - a Go map is a reference that may be nil: [option (gmap string V)];
    - a Go pointer is an [option]; dereferencing nil panics;
    - a method is a function from the correlator before the call to a
      [result]: the returned value, the correlator after the call and the
      lines written to standard output, or a panic;
    - [int] is the 64-bit signed integer of the usual build targets, with
      its wrap-around written out. *)

From Stdlib Require Import ZArith Ascii String.
From stdpp Require Import base option strings pretty gmap fin_maps.

Local Open Scope Z_scope.
Local Open Scope string_scope.

(** ** Go primitives *)

(** [int]: increments wrap around at 64 bits. *)
Definition int_wrap (z : Z) : Z := (z + 2 ^ 63) `mod` 2 ^ 64 - 2 ^ 63.

Definition int_incr (z : Z) : Z := int_wrap (z + 1).

(** [strconv.FormatInt(z, 10)]: the decimal rendering of an [int64], with a
    leading minus sign for negative numbers. *)
Definition FormatInt (z : Z) : string := pretty z.

(** A Go map value: nil, or a reference to a table.  Reading a nil map
    gives the zero value of the element type, [delete] on a nil map does
    nothing, assigning into a nil map panics (the [None] result of
    [map_assign]). *)
Abbreviation gomap V := (option (gmap string V)).

Definition map_index {V} (zero : V) (m : gomap V) (k : string) : V :=
  match m with
  | Some g => default zero (g !! k)
  | None => zero
  end.

Definition map_delete {V} (m : gomap V) (k : string) : gomap V :=
  match m with
  | Some g => Some (delete k g)
  | None => None
  end.

Definition map_assign {V} (m : gomap V) (k : string) (v : V) : option (gomap V) :=
  match m with
  | Some g => Some (Some (<[k := v]> g))
  | None => None
  end.

(** ** The history events of the SWF client library

    [swf.HistoryEvent] and its attribute structs belong to the AWS SDK, not
    to this repository.  They are plain data; the records below carry the
    fields that the correlator reads, with the SDK's names and with every
    pointer field ([aws.StringValue], [aws.LongValue], [*T]) as an
    [option]. *)
Module swf.

Record ActivityType := mkActivityType {
  Name : option string;
  Version : option string
}.

Module ActivityTaskScheduled.
Record Attributes := mk {
  ActivityID : option string;
  ActivityType : option swf.ActivityType
}.
End ActivityTaskScheduled.

Module ActivityTaskCompleted.
Record Attributes := mk { ScheduledEventID : option Z }.
End ActivityTaskCompleted.

Module ActivityTaskFailed.
Record Attributes := mk { ScheduledEventID : option Z }.
End ActivityTaskFailed.

Module ActivityTaskTimedOut.
Record Attributes := mk { ScheduledEventID : option Z }.
End ActivityTaskTimedOut.

Module ActivityTaskCanceled.
Record Attributes := mk { ScheduledEventID : option Z }.
End ActivityTaskCanceled.

Module SignalExternalWorkflowExecutionInitiated.
Record Attributes := mk {
  SignalName : option string;
  WorkflowID : option string
}.
End SignalExternalWorkflowExecutionInitiated.

Module ExternalWorkflowExecutionSignaled.
Record Attributes := mk { InitiatedEventID : option Z }.
End ExternalWorkflowExecutionSignaled.

Module SignalExternalWorkflowExecutionFailed.
Record Attributes := mk { InitiatedEventID : option Z }.
End SignalExternalWorkflowExecutionFailed.

Record HistoryEvent := mkHistoryEvent {
  EventType : option string;
  EventID : option Z;
  ActivityTaskScheduledEventAttributes :
    option ActivityTaskScheduled.Attributes;
  ActivityTaskCompletedEventAttributes :
    option ActivityTaskCompleted.Attributes;
  ActivityTaskFailedEventAttributes :
    option ActivityTaskFailed.Attributes;
  ActivityTaskTimedOutEventAttributes :
    option ActivityTaskTimedOut.Attributes;
  ActivityTaskCanceledEventAttributes :
    option ActivityTaskCanceled.Attributes;
  SignalExternalWorkflowExecutionInitiatedEventAttributes :
    option SignalExternalWorkflowExecutionInitiated.Attributes;
  ExternalWorkflowExecutionSignaledEventAttributes :
    option ExternalWorkflowExecutionSignaled.Attributes;
  SignalExternalWorkflowExecutionFailedEventAttributes :
    option SignalExternalWorkflowExecutionFailed.Attributes
}.

(** The event type names, as the SDK declares them. *)
Definition EventTypeActivityTaskScheduled := "ActivityTaskScheduled".
Definition EventTypeActivityTaskCompleted := "ActivityTaskCompleted".
Definition EventTypeActivityTaskFailed := "ActivityTaskFailed".
Definition EventTypeActivityTaskTimedOut := "ActivityTaskTimedOut".
Definition EventTypeActivityTaskCanceled := "ActivityTaskCanceled".
Definition EventTypeSignalExternalWorkflowExecutionInitiated :=
  "SignalExternalWorkflowExecutionInitiated".
Definition EventTypeExternalWorkflowExecutionSignaled :=
  "ExternalWorkflowExecutionSignaled".
Definition EventTypeSignalExternalWorkflowExecutionFailed :=
  "SignalExternalWorkflowExecutionFailed".

End swf.

(** ** The data of the correlator *)

(** [ActivityInfo]: the business activity id and the embedded
    [*swf.ActivityType]. *)
Record ActivityInfo := mkActivityInfo {
  ActivityID : string;
  ActivityType : option swf.ActivityType
}.

Record SignalInfo := mkSignalInfo {
  SignalName : string;
  WorkflowID : string
}.

(** [EventCorrelator]: the two pending indices hold pointers to infos
    (a table entry may itself be a nil pointer), the two counter indices
    hold [int]s. *)
Record EventCorrelator := mkEventCorrelator {
  Activities : gomap (option ActivityInfo);
  ActivityAttempts : gomap Z;
  Signals : gomap (option SignalInfo);
  SignalAttempts : gomap Z
}.

(** The zero value [EventCorrelator{}]: every map is nil. *)
Definition zero_value : EventCorrelator :=
  {| Activities := None; ActivityAttempts := None;
     Signals := None; SignalAttempts := None |}.

Definition set_Activities (m : gomap (option ActivityInfo)) (a : EventCorrelator) :=
  {| Activities := m; ActivityAttempts := ActivityAttempts a;
     Signals := Signals a; SignalAttempts := SignalAttempts a |}.

Definition set_ActivityAttempts (m : gomap Z) (a : EventCorrelator) :=
  {| Activities := Activities a; ActivityAttempts := m;
     Signals := Signals a; SignalAttempts := SignalAttempts a |}.

Definition set_Signals (m : gomap (option SignalInfo)) (a : EventCorrelator) :=
  {| Activities := Activities a; ActivityAttempts := ActivityAttempts a;
     Signals := m; SignalAttempts := SignalAttempts a |}.

Definition set_SignalAttempts (m : gomap Z) (a : EventCorrelator) :=
  {| Activities := Activities a; ActivityAttempts := ActivityAttempts a;
     Signals := Signals a; SignalAttempts := m |}.

(** ** Methods as state transformers that may panic *)

(** The outcome of running a method on a correlator: it returns [v] and
    leaves the correlator [a], or it panics and leaves the correlator as it
    was at that moment; [out] is what it wrote to standard output. *)
Inductive result (A : Type) : Type :=
| Ok (v : A) (a : EventCorrelator) (out : list string)
| Panic (a : EventCorrelator) (out : list string).
Arguments Ok {A} v a out.
Arguments Panic {A} a out.

Definition M (A : Type) : Type := EventCorrelator → result A.

Global Instance go_ret : MRet M := λ A v a, Ok v a [].

Global Instance go_bind : MBind M := λ A B f m a,
  match m a with
  | Ok v a' out =>
      match f v a' with
      | Ok w a'' out' => Ok w a'' (out ++ out')
      | Panic a'' out' => Panic a'' (out ++ out')
      end
  | Panic a' out => Panic a' out
  end.

Definition panic {A} : M A := λ a, Panic a [].

Definition get : M EventCorrelator := λ a, Ok a a [].

Definition modify (f : EventCorrelator → EventCorrelator) : M unit :=
  λ a, Ok tt (f a) [].

Definition stdout_write (line : string) : M unit := λ a, Ok tt a [line].

(** [*p]: a nil pointer dereference panics. *)
Definition deref {A} (p : option A) : M A :=
  match p with
  | Some v => mret v
  | None => panic
  end.

(** The correlator a run ends with, and what it printed. *)
Definition final {A} (r : result A) : EventCorrelator :=
  match r with Ok _ a _ | Panic a _ => a end.

Definition output {A} (r : result A) : list string :=
  match r with Ok _ _ out | Panic _ out => out end.

Definition value {A} (r : result A) : option A :=
  match r with Ok v _ _ => Some v | Panic _ _ => None end.

Definition panics {A} (r : result A) : bool :=
  match r with Ok _ _ _ => false | Panic _ _ => true end.

(** ** The methods of [*EventCorrelator] *)

Definition checkInit : M unit :=
  a ← get;
  (if Activities a is None then modify (set_Activities (Some ∅)) else mret tt);;
  a ← get;
  (if ActivityAttempts a is None then modify (set_ActivityAttempts (Some ∅)) else mret tt);;
  a ← get;
  (if Signals a is None then modify (set_Signals (Some ∅)) else mret tt);;
  a ← get;
  (if SignalAttempts a is None then modify (set_SignalAttempts (Some ∅)) else mret tt).

Definition key (eventID : option Z) : M string :=
  v ← deref eventID;
  mret (FormatInt v).

Definition getID (h : swf.HistoryEvent) : M string :=
  ty ← deref (swf.EventType h);
  if decide (ty = swf.EventTypeActivityTaskCompleted) then
    attrs ← deref (swf.ActivityTaskCompletedEventAttributes h);
    key (swf.ActivityTaskCompleted.ScheduledEventID attrs)
  else if decide (ty = swf.EventTypeActivityTaskFailed) then
    attrs ← deref (swf.ActivityTaskFailedEventAttributes h);
    key (swf.ActivityTaskFailed.ScheduledEventID attrs)
  else if decide (ty = swf.EventTypeActivityTaskTimedOut) then
    attrs ← deref (swf.ActivityTaskTimedOutEventAttributes h);
    key (swf.ActivityTaskTimedOut.ScheduledEventID attrs)
  else if decide (ty = swf.EventTypeActivityTaskCanceled) then
    attrs ← deref (swf.ActivityTaskCanceledEventAttributes h);
    key (swf.ActivityTaskCanceled.ScheduledEventID attrs)
  else if decide (ty = swf.EventTypeExternalWorkflowExecutionSignaled) then
    attrs ← deref (swf.ExternalWorkflowExecutionSignaledEventAttributes h);
    key (swf.ExternalWorkflowExecutionSignaled.InitiatedEventID attrs)
  else if decide (ty = swf.EventTypeSignalExternalWorkflowExecutionFailed) then
    attrs ← deref (swf.SignalExternalWorkflowExecutionFailedEventAttributes h);
    key (swf.SignalExternalWorkflowExecutionFailed.InitiatedEventID attrs)
  else mret "".

Definition safeActivityID (h : swf.HistoryEvent) : M string :=
  id ← getID h;
  a ← get;
  match map_index None (Activities a) id with
  | Some info => mret (ActivityID info)
  | None => mret ""
  end.

Definition signalIDFromInfo (info : option SignalInfo) : M string :=
  i ← deref info;
  mret (SignalName i +:+ "->" +:+ WorkflowID i).

Definition safeSignalID (h : swf.HistoryEvent) : M string :=
  id ← getID h;
  a ← get;
  match map_index None (Signals a) id with
  | Some info => signalIDFromInfo (Some info)
  | None => mret ""
  end.

(** [m[k]++] and [delete(m, k)] on the two counter maps and [delete] and
    assignment on the two pending maps. *)
Definition incr_entry (m : gomap Z) (k : string) : M (gomap Z) :=
  deref (map_assign m k (int_incr (map_index 0 m k))).

Definition incrementActivityAttempts (h : swf.HistoryEvent) : M unit :=
  id ← safeActivityID h;
  if decide (id ≠ "") then
    a ← get;
    m ← incr_entry (ActivityAttempts a) id;
    modify (set_ActivityAttempts m)
  else mret tt.

Definition incrementSignalAttempts (h : swf.HistoryEvent) : M unit :=
  id ← safeSignalID h;
  if decide (id ≠ "") then
    a ← get;
    m ← incr_entry (SignalAttempts a) id;
    modify (set_SignalAttempts m)
  else mret tt.

Definition delete_ActivityAttempts (k : string) : M unit :=
  modify (λ a, set_ActivityAttempts (map_delete (ActivityAttempts a) k) a).

Definition delete_Activities (k : string) : M unit :=
  modify (λ a, set_Activities (map_delete (Activities a) k) a).

Definition delete_SignalAttempts (k : string) : M unit :=
  modify (λ a, set_SignalAttempts (map_delete (SignalAttempts a) k) a).

Definition delete_Signals (k : string) : M unit :=
  modify (λ a, set_Signals (map_delete (Signals a) k) a).

Definition RemoveCorrelation (h : swf.HistoryEvent) : M unit :=
  checkInit;;
  ty ← deref (swf.EventType h);
  if decide (ty = swf.EventTypeActivityTaskCompleted) then
    id ← safeActivityID h;
    delete_ActivityAttempts id;;
    attrs ← deref (swf.ActivityTaskCompletedEventAttributes h);
    k ← key (swf.ActivityTaskCompleted.ScheduledEventID attrs);
    delete_Activities k
  else if decide (ty = swf.EventTypeActivityTaskFailed) then
    incrementActivityAttempts h;;
    attrs ← deref (swf.ActivityTaskFailedEventAttributes h);
    k ← key (swf.ActivityTaskFailed.ScheduledEventID attrs);
    delete_Activities k
  else if decide (ty = swf.EventTypeActivityTaskTimedOut) then
    incrementActivityAttempts h;;
    attrs ← deref (swf.ActivityTaskTimedOutEventAttributes h);
    k ← key (swf.ActivityTaskTimedOut.ScheduledEventID attrs);
    delete_Activities k
  else if decide (ty = swf.EventTypeActivityTaskCanceled) then
    id ← safeActivityID h;
    delete_ActivityAttempts id;;
    attrs ← deref (swf.ActivityTaskCanceledEventAttributes h);
    k ← key (swf.ActivityTaskCanceled.ScheduledEventID attrs);
    delete_Activities k
  else if decide (ty = swf.EventTypeExternalWorkflowExecutionSignaled) then
    attrs ← deref (swf.ExternalWorkflowExecutionSignaledEventAttributes h);
    k ← key (swf.ExternalWorkflowExecutionSignaled.InitiatedEventID attrs);
    a ← get;
    let info := map_index None (Signals a) k in
    id ← signalIDFromInfo info;
    delete_SignalAttempts id;;
    attrs ← deref (swf.ExternalWorkflowExecutionSignaledEventAttributes h);
    k ← key (swf.ExternalWorkflowExecutionSignaled.InitiatedEventID attrs);
    delete_Signals k
  else if decide (ty = swf.EventTypeSignalExternalWorkflowExecutionFailed) then
    incrementSignalAttempts h;;
    attrs ← deref (swf.SignalExternalWorkflowExecutionFailedEventAttributes h);
    k ← key (swf.SignalExternalWorkflowExecutionFailed.InitiatedEventID attrs);
    delete_Signals k
  else mret tt.

(** The method [ActivityInfo]; the name [ActivityInfo] itself is taken by
    the struct.  Likewise for [SignalInfo]. *)
Definition EventCorrelator_ActivityInfo (h : swf.HistoryEvent) : M (option ActivityInfo) :=
  checkInit;;
  id ← getID h;
  a ← get;
  mret (map_index None (Activities a) id).

Definition EventCorrelator_SignalInfo (h : swf.HistoryEvent) : M (option SignalInfo) :=
  checkInit;;
  id ← getID h;
  a ← get;
  mret (map_index None (Signals a) id).

Definition AttemptsForActivity (info : option ActivityInfo) : M Z :=
  checkInit;;
  i ← deref info;
  a ← get;
  mret (map_index 0 (ActivityAttempts a) (ActivityID i)).

Definition AttemptsForSignal (signalInfo : option SignalInfo) : M Z :=
  checkInit;;
  id ← signalIDFromInfo signalInfo;
  a ← get;
  mret (map_index 0 (SignalAttempts a) id).

Definition newline : string := String "010"%char "".

Section Tracking.

(** [Correlate] prints the pending signals with the verb [%+v].  What that
    writes for a map of pointers (addresses, and the order of the entries)
    is not a function of the map's contents, so it is a parameter here. *)
Variable fmt_Signals : gomap (option SignalInfo) → string.

Definition Correlate (h : swf.HistoryEvent) : M unit :=
  checkInit;;
  ty ← deref (swf.EventType h);
  (if decide (ty = swf.EventTypeActivityTaskScheduled) then
     k ← key (swf.EventID h);
     attrs ← deref (swf.ActivityTaskScheduledEventAttributes h);
     id ← deref (swf.ActivityTaskScheduled.ActivityID attrs);
     let info :=
       {| ActivityID := id;
          ActivityType := swf.ActivityTaskScheduled.ActivityType attrs |} in
     a ← get;
     m ← deref (map_assign (Activities a) k (Some info));
     modify (set_Activities m)
   else mret tt);;
  ty ← deref (swf.EventType h);
  if decide (ty = swf.EventTypeSignalExternalWorkflowExecutionInitiated) then
    k ← key (swf.EventID h);
    attrs ← deref (swf.SignalExternalWorkflowExecutionInitiatedEventAttributes h);
    name ← deref (swf.SignalExternalWorkflowExecutionInitiated.SignalName attrs);
    wid ← deref (swf.SignalExternalWorkflowExecutionInitiated.WorkflowID attrs);
    let info := {| SignalName := name; WorkflowID := wid |} in
    a ← get;
    m ← deref (map_assign (Signals a) k (Some info));
    modify (set_Signals m);;
    k ← key (swf.EventID h);
    a ← get;
    stdout_write ("added signal @ " +:+ k +:+ newline +:+ " "
           +:+ fmt_Signals (Signals a) +:+ newline)
  else mret tt.

Definition Track (h : swf.HistoryEvent) : M unit :=
  RemoveCorrelation h;;
  Correlate h.

(** Replaying a history: one call of [Track] per event, in order; a panic
    ends the replay. *)
Fixpoint TrackAll (hs : list swf.HistoryEvent) : M unit :=
  match hs with
  | [] => mret tt
  | h :: hs' => Track h;; TrackAll hs'
  end.

End Tracking.

(** ** History events, as the decoder hands them over *)

Definition no_attributes (ty : string) (eventID : Z) : swf.HistoryEvent :=
  {| swf.EventType := Some ty; swf.EventID := Some eventID;
     swf.ActivityTaskScheduledEventAttributes := None;
     swf.ActivityTaskCompletedEventAttributes := None;
     swf.ActivityTaskFailedEventAttributes := None;
     swf.ActivityTaskTimedOutEventAttributes := None;
     swf.ActivityTaskCanceledEventAttributes := None;
     swf.SignalExternalWorkflowExecutionInitiatedEventAttributes := None;
     swf.ExternalWorkflowExecutionSignaledEventAttributes := None;
     swf.SignalExternalWorkflowExecutionFailedEventAttributes := None |}.

Definition activity_scheduled (eventID : Z) (activityID : string)
    (ty : option swf.ActivityType) : swf.HistoryEvent :=
  swf.mkHistoryEvent (Some swf.EventTypeActivityTaskScheduled) (Some eventID)
    (Some (swf.ActivityTaskScheduled.mk (Some activityID) ty))
    None None None None None None None.

Definition activity_completed (eventID scheduledEventID : Z) : swf.HistoryEvent :=
  swf.mkHistoryEvent (Some swf.EventTypeActivityTaskCompleted) (Some eventID)
    None (Some (swf.ActivityTaskCompleted.mk (Some scheduledEventID)))
    None None None None None None.

Definition activity_failed (eventID scheduledEventID : Z) : swf.HistoryEvent :=
  swf.mkHistoryEvent (Some swf.EventTypeActivityTaskFailed) (Some eventID)
    None None (Some (swf.ActivityTaskFailed.mk (Some scheduledEventID)))
    None None None None None.

Definition activity_timed_out (eventID scheduledEventID : Z) : swf.HistoryEvent :=
  swf.mkHistoryEvent (Some swf.EventTypeActivityTaskTimedOut) (Some eventID)
    None None None (Some (swf.ActivityTaskTimedOut.mk (Some scheduledEventID)))
    None None None None.

Definition activity_canceled (eventID scheduledEventID : Z) : swf.HistoryEvent :=
  swf.mkHistoryEvent (Some swf.EventTypeActivityTaskCanceled) (Some eventID)
    None None None None
    (Some (swf.ActivityTaskCanceled.mk (Some scheduledEventID)))
    None None None.

Definition signal_initiated (eventID : Z) (signalName workflowID : string)
    : swf.HistoryEvent :=
  swf.mkHistoryEvent
    (Some swf.EventTypeSignalExternalWorkflowExecutionInitiated) (Some eventID)
    None None None None None
    (Some (swf.SignalExternalWorkflowExecutionInitiated.mk
             (Some signalName) (Some workflowID)))
    None None.

Definition execution_signaled (eventID initiatedEventID : Z) : swf.HistoryEvent :=
  swf.mkHistoryEvent (Some swf.EventTypeExternalWorkflowExecutionSignaled)
    (Some eventID) None None None None None None
    (Some (swf.ExternalWorkflowExecutionSignaled.mk (Some initiatedEventID)))
    None.

Definition signal_failed (eventID initiatedEventID : Z) : swf.HistoryEvent :=
  swf.mkHistoryEvent (Some swf.EventTypeSignalExternalWorkflowExecutionFailed)
    (Some eventID) None None None None None None None
    (Some (swf.SignalExternalWorkflowExecutionFailed.mk (Some initiatedEventID))).

(** ** The contents of the four indices *)

(** What an index holds, whether the Go map is nil or not. *)
Definition activities (a : EventCorrelator) : gmap string (option ActivityInfo) :=
  default ∅ (Activities a).

Definition activityAttempts (a : EventCorrelator) : gmap string Z :=
  default ∅ (ActivityAttempts a).

Definition signals (a : EventCorrelator) : gmap string (option SignalInfo) :=
  default ∅ (Signals a).

Definition signalAttempts (a : EventCorrelator) : gmap string Z :=
  default ∅ (SignalAttempts a).

(** The correlator that [checkInit] leaves: the same contents, no nil map. *)
Definition init (a : EventCorrelator) : EventCorrelator :=
  {| Activities := Some (activities a);
     ActivityAttempts := Some (activityAttempts a);
     Signals := Some (signals a);
     SignalAttempts := Some (signalAttempts a) |}.

Definition initialized (a : EventCorrelator) : bool :=
  bool_decide (is_Some (Activities a)) && bool_decide (is_Some (ActivityAttempts a))
  && bool_decide (is_Some (Signals a)) && bool_decide (is_Some (SignalAttempts a)).

(** A freshly constructed correlator: four empty maps. *)
Definition fresh : EventCorrelator := init zero_value.

(** The eight kinds of event that [Track] acts on: two establish a
    correlation, six resolve one. *)
Definition recognized : list string :=
  [ swf.EventTypeActivityTaskScheduled;
    swf.EventTypeSignalExternalWorkflowExecutionInitiated;
    swf.EventTypeActivityTaskCompleted;
    swf.EventTypeActivityTaskFailed;
    swf.EventTypeActivityTaskTimedOut;
    swf.EventTypeActivityTaskCanceled;
    swf.EventTypeExternalWorkflowExecutionSignaled;
    swf.EventTypeSignalExternalWorkflowExecutionFailed ].

(** The precondition of the two lookups: the event has a type, and when
    its type is one of the six resolving kinds, the attributes of that kind
    and the origin event id in them are present. *)
Definition reference_present (h : swf.HistoryEvent) : bool :=
  match swf.EventType h with
  | None => false
  | Some ty =>
      if decide (ty = swf.EventTypeActivityTaskCompleted) then
        bool_decide (is_Some (swf.ActivityTaskCompletedEventAttributes h
                              ≫= swf.ActivityTaskCompleted.ScheduledEventID))
      else if decide (ty = swf.EventTypeActivityTaskFailed) then
        bool_decide (is_Some (swf.ActivityTaskFailedEventAttributes h
                              ≫= swf.ActivityTaskFailed.ScheduledEventID))
      else if decide (ty = swf.EventTypeActivityTaskTimedOut) then
        bool_decide (is_Some (swf.ActivityTaskTimedOutEventAttributes h
                              ≫= swf.ActivityTaskTimedOut.ScheduledEventID))
      else if decide (ty = swf.EventTypeActivityTaskCanceled) then
        bool_decide (is_Some (swf.ActivityTaskCanceledEventAttributes h
                              ≫= swf.ActivityTaskCanceled.ScheduledEventID))
      else if decide (ty = swf.EventTypeExternalWorkflowExecutionSignaled) then
        bool_decide (is_Some (swf.ExternalWorkflowExecutionSignaledEventAttributes h
                              ≫= swf.ExternalWorkflowExecutionSignaled.InitiatedEventID))
      else if decide (ty = swf.EventTypeSignalExternalWorkflowExecutionFailed) then
        bool_decide (is_Some (swf.SignalExternalWorkflowExecutionFailedEventAttributes h
                              ≫= swf.SignalExternalWorkflowExecutionFailed.InitiatedEventID))
      else true
  end.

(** Two runs that end with the same value (or both with a panic) and the
    same correlator; they may differ in what they printed. *)
Definition same_effect {A} (r1 r2 : result A) : Prop :=
  value r1 = value r2 ∧ final r1 = final r2.

(** ** Sample data *)

Definition foo_1 : option swf.ActivityType :=
  Some {| swf.Name := Some "foo"; swf.Version := Some "1" |}.

Definition a1_info : ActivityInfo :=
  {| ActivityID := "a1"; ActivityType := foo_1 |}.

Definition N_W_info : SignalInfo :=
  {| SignalName := "N"; WorkflowID := "W" |}.

(** A rendering of the pending signals that hides the entries. *)
Definition fmt_elided (m : gomap (option SignalInfo)) : string :=
  if m is None then "map[]" else "map[...]".

(** A correlator that already counts five attempts of activity [a1]. *)
Definition five_attempts : EventCorrelator :=
  {| Activities := Some ∅; ActivityAttempts := Some {[ "a1" := 5 ]};
     Signals := Some ∅; SignalAttempts := Some ∅ |}.

(** ** The transition table

    The identity that a terminal event resolves to, and the effect of a
    failure on the counter of that identity; the run lemmas below state
    what each kind of event does to the four indices in these terms. *)

(** The activity id found through the pending entry under key [k], or the
    empty string: what [safeActivityID] returns. *)
Definition pending_activity_id (acts : gmap string (option ActivityInfo))
    (k : string) : string :=
  match acts !! k with
  | Some (Some info) => ActivityID info
  | _ => ""
  end.

(** Likewise for [safeSignalID]. *)
Definition pending_signal_id (sigs : gmap string (option SignalInfo))
    (k : string) : string :=
  match sigs !! k with
  | Some (Some info) => SignalName info +:+ "->" +:+ WorkflowID info
  | _ => ""
  end.

(** One more attempt for [id], unless [id] is the empty string. *)
Definition bump (id : string) (m : gmap string Z) : gmap string Z :=
  if decide (id ≠ "") then <[id := int_incr (default 0 (m !! id))]> m else m.

(** The terminal events of an activity scheduled under event id [k], and of
    a signal initiated under [k]; [e] is the terminal event's own id. *)
Definition activity_terminals (e k : Z) : list swf.HistoryEvent :=
  [activity_completed e k; activity_failed e k;
   activity_timed_out e k; activity_canceled e k].

Definition signal_terminals (e k : Z) : list swf.HistoryEvent :=
  [execution_signaled e k; signal_failed e k].

(** The terminal events that count as a failed attempt of the activity,
    and those that clear its attempts. *)
Definition activity_failures (e k : Z) : list swf.HistoryEvent :=
  [activity_failed e k; activity_timed_out e k].

Definition activity_successes (e k : Z) : list swf.HistoryEvent :=
  [activity_completed e k; activity_canceled e k].

(** A property of the correlator that a method keeps, whether it returns
    or panics. *)
Definition preserves {A} (P : EventCorrelator → Prop) (m : M A) : Prop :=
  ∀ a, P a → P (final (m a)).

(** No activity counter is recorded under the empty activity id. *)
Definition no_empty_id (a : EventCorrelator) : Prop :=
  activityAttempts a !! "" = None.

(** ** The whole of [Track], for every event *)

(** The precondition of [Track]: the event has a type, and the pointers
    that [Track] dereferences for an event of that type are not nil. *)
Definition payload_present (h : swf.HistoryEvent) : bool :=
  match swf.EventType h with
  | None => false
  | Some ty =>
      if decide (ty = swf.EventTypeActivityTaskScheduled) then
        bool_decide (is_Some (swf.EventID h))
        && bool_decide (is_Some (swf.ActivityTaskScheduledEventAttributes h
                                 ≫= swf.ActivityTaskScheduled.ActivityID))
      else if decide
           (ty = swf.EventTypeSignalExternalWorkflowExecutionInitiated) then
        bool_decide (is_Some (swf.EventID h))
        && bool_decide
             (is_Some (swf.SignalExternalWorkflowExecutionInitiatedEventAttributes h
                       ≫= swf.SignalExternalWorkflowExecutionInitiated.SignalName))
        && bool_decide
             (is_Some (swf.SignalExternalWorkflowExecutionInitiatedEventAttributes h
                       ≫= swf.SignalExternalWorkflowExecutionInitiated.WorkflowID))
      else reference_present h
  end.

(** A signaled event whose initiating event id has no pending signal (or a
    nil one) in [a]. *)
Definition signaled_unmatched (a : EventCorrelator) (h : swf.HistoryEvent)
    : Prop :=
  swf.EventType h = Some swf.EventTypeExternalWorkflowExecutionSignaled
  ∧ ∃ k,
      swf.ExternalWorkflowExecutionSignaledEventAttributes h
        ≫= swf.ExternalWorkflowExecutionSignaled.InitiatedEventID = Some k
      ∧ default None (signals a !! FormatInt k) = None.

(** What a call of [Track] can do to a correlator [a]: panic, ignore the
    event, or make one of six changes to the indices.  [p] renders the
    pending signals for the line that is printed when a signal is
    initiated. *)
Inductive Track_outcome (p : gomap (option SignalInfo) → string)
    (a : EventCorrelator) (h : swf.HistoryEvent) : result unit → Prop :=
| outcome_panic :
    payload_present h = false ∨ signaled_unmatched a h →
    Track_outcome p a h (Panic (init a) [])
| outcome_ignored ty :
    swf.EventType h = Some ty → ty ∉ recognized →
    Track_outcome p a h (Ok tt (init a) [])
| outcome_scheduled k info :
    swf.EventType h = Some swf.EventTypeActivityTaskScheduled →
    Track_outcome p a h
      (Ok tt
         {| Activities := Some (<[FormatInt k := Some info]> (activities a));
            ActivityAttempts := Some (activityAttempts a);
            Signals := Some (signals a);
            SignalAttempts := Some (signalAttempts a) |} [])
| outcome_initiated k info :
    swf.EventType h
      = Some swf.EventTypeSignalExternalWorkflowExecutionInitiated →
    Track_outcome p a h
      (Ok tt
         {| Activities := Some (activities a);
            ActivityAttempts := Some (activityAttempts a);
            Signals := Some (<[FormatInt k := Some info]> (signals a));
            SignalAttempts := Some (signalAttempts a) |}
         ["added signal @ " +:+ FormatInt k +:+ newline +:+ " "
          +:+ p (Some (<[FormatInt k := Some info]> (signals a)))
          +:+ newline])
| outcome_cleared ty k :
    swf.EventType h = Some ty →
    ty ∈ [swf.EventTypeActivityTaskCompleted;
          swf.EventTypeActivityTaskCanceled] →
    Track_outcome p a h
      (Ok tt
         {| Activities := Some (delete (FormatInt k) (activities a));
            ActivityAttempts :=
              Some (delete (pending_activity_id (activities a) (FormatInt k))
                      (activityAttempts a));
            Signals := Some (signals a);
            SignalAttempts := Some (signalAttempts a) |} [])
| outcome_counted ty k :
    swf.EventType h = Some ty →
    ty ∈ [swf.EventTypeActivityTaskFailed;
          swf.EventTypeActivityTaskTimedOut] →
    Track_outcome p a h
      (Ok tt
         {| Activities := Some (delete (FormatInt k) (activities a));
            ActivityAttempts :=
              Some (bump (pending_activity_id (activities a) (FormatInt k))
                      (activityAttempts a));
            Signals := Some (signals a);
            SignalAttempts := Some (signalAttempts a) |} [])
| outcome_signaled k info :
    swf.EventType h = Some swf.EventTypeExternalWorkflowExecutionSignaled →
    signals a !! FormatInt k = Some (Some info) →
    Track_outcome p a h
      (Ok tt
         {| Activities := Some (activities a);
            ActivityAttempts := Some (activityAttempts a);
            Signals := Some (delete (FormatInt k) (signals a));
            SignalAttempts :=
              Some (delete (SignalName info +:+ "->" +:+ WorkflowID info)
                      (signalAttempts a)) |} [])
| outcome_signal_counted k :
    swf.EventType h
      = Some swf.EventTypeSignalExternalWorkflowExecutionFailed →
    Track_outcome p a h
      (Ok tt
         {| Activities := Some (activities a);
            ActivityAttempts := Some (activityAttempts a);
            Signals := Some (delete (FormatInt k) (signals a));
            SignalAttempts :=
              Some (bump (pending_signal_id (signals a) (FormatInt k))
                      (signalAttempts a)) |} []).

(** The types of the events about activities, and of those about
    signals. *)
Definition activity_kinds : list string :=
  [ swf.EventTypeActivityTaskScheduled; swf.EventTypeActivityTaskCompleted;
    swf.EventTypeActivityTaskFailed; swf.EventTypeActivityTaskTimedOut;
    swf.EventTypeActivityTaskCanceled ].

Definition signal_kinds : list string :=
  [ swf.EventTypeSignalExternalWorkflowExecutionInitiated;
    swf.EventTypeExternalWorkflowExecutionSignaled;
    swf.EventTypeSignalExternalWorkflowExecutionFailed ].

(** No counter is recorded under the empty identity, in either family. *)
Definition counters_named (a : EventCorrelator) : Prop :=
  activityAttempts a !! "" = None ∧ signalAttempts a !! "" = None.

(** Every pending entry is a non-nil info under the decimal rendering of
    an event id. *)
Definition pending_keyed (a : EventCorrelator) : Prop :=
  (∀ k v, activities a !! k = Some v → is_Some v ∧ ∃ z, k = FormatInt z)
  ∧ (∀ k v, signals a !! k = Some v → is_Some v ∧ ∃ z, k = FormatInt z).

(** The events of activity [aid] tried once per element of [tries] and
    failing every time: each try is scheduled under its own event id [k]
    and ended by the event with id [e], a time-out when [timed_out] is set
    and a failure otherwise. *)
Definition failed_try (aid : string)
    (try : Z * Z * option swf.ActivityType * bool) : list swf.HistoryEvent :=
  let '(k, e, ty, timed_out) := try in
  [activity_scheduled k aid ty;
   if timed_out then activity_timed_out e k else activity_failed e k].

Definition failed_tries (aid : string)
    (tries : list (Z * Z * option swf.ActivityType * bool))
    : list swf.HistoryEvent :=
  concat (map (failed_try aid) tries).

(** The eight events that carry event id [k], as their own id or as the id
    of their origin. *)
Definition events_about (k e : Z) (aid : string)
    (ty : option swf.ActivityType) (name wid : string)
    : list swf.HistoryEvent :=
  [activity_scheduled k aid ty; activity_completed e k; activity_failed e k;
   activity_timed_out e k; activity_canceled e k;
   signal_initiated k name wid; execution_signaled e k; signal_failed e k].

(** A correlator with activity [a1] pending under event id 10 and signal
    [N] to [W] pending under event id 12. *)
Definition two_pending : EventCorrelator :=
  {| Activities := Some {[ "10" := Some a1_info ]};
     ActivityAttempts := Some ∅;
     Signals := Some {[ "12" := Some N_W_info ]};
     SignalAttempts := Some ∅ |}.

(** * Properties *)

(** ** Running the methods *)

Lemma checkInit_run a : checkInit a = Ok tt (init a) [].
Proof. by destruct a as [[?|] [?|] [?|] [?|]]. Qed.

Lemma checkInit_initialized x y z w :
  checkInit (mkEventCorrelator (Some x) (Some y) (Some z) (Some w))
  = Ok tt (mkEventCorrelator (Some x) (Some y) (Some z) (Some w)) [].
Proof. reflexivity. Qed.

Lemma init_initialized a : initialized a = true → init a = a.
Proof.
  destruct a as [[?|] [?|] [?|] [?|]]; cbn; try discriminate; reflexivity.
Qed.

(** Unfold the methods and the monad on a goal whose correlator is a
    record of non-nil maps, and decide the comparisons of event types. *)
Ltac go_unfold :=
  cbv [mbind mret go_bind go_ret panic get modify stdout_write deref key
       getID safeActivityID signalIDFromInfo safeSignalID incr_entry
       incrementActivityAttempts incrementSignalAttempts
       delete_ActivityAttempts delete_Activities delete_SignalAttempts
       delete_Signals RemoveCorrelation Correlate Track
       EventCorrelator_ActivityInfo EventCorrelator_SignalInfo
       AttemptsForActivity AttemptsForSignal
       map_index map_delete map_assign
       set_Activities set_ActivityAttempts set_Signals set_SignalAttempts
       Activities ActivityAttempts Signals SignalAttempts init
       ActivityID ActivityType SignalName WorkflowID
       activity_scheduled activity_completed activity_failed
       activity_timed_out activity_canceled signal_initiated
       execution_signaled signal_failed no_attributes
       swf.EventType swf.EventID
       swf.ActivityTaskScheduledEventAttributes
       swf.ActivityTaskCompletedEventAttributes
       swf.ActivityTaskFailedEventAttributes
       swf.ActivityTaskTimedOutEventAttributes
       swf.ActivityTaskCanceledEventAttributes
       swf.SignalExternalWorkflowExecutionInitiatedEventAttributes
       swf.ExternalWorkflowExecutionSignaledEventAttributes
       swf.SignalExternalWorkflowExecutionFailedEventAttributes
       swf.ActivityTaskScheduled.ActivityID
       swf.ActivityTaskScheduled.ActivityType
       swf.ActivityTaskCompleted.ScheduledEventID
       swf.ActivityTaskFailed.ScheduledEventID
       swf.ActivityTaskTimedOut.ScheduledEventID
       swf.ActivityTaskCanceled.ScheduledEventID
       swf.SignalExternalWorkflowExecutionInitiated.SignalName
       swf.SignalExternalWorkflowExecutionInitiated.WorkflowID
       swf.ExternalWorkflowExecutionSignaled.InitiatedEventID
       swf.SignalExternalWorkflowExecutionFailed.InitiatedEventID
       swf.EventTypeActivityTaskScheduled swf.EventTypeActivityTaskCompleted
       swf.EventTypeActivityTaskFailed swf.EventTypeActivityTaskTimedOut
       swf.EventTypeActivityTaskCanceled
       swf.EventTypeSignalExternalWorkflowExecutionInitiated
       swf.EventTypeExternalWorkflowExecutionSignaled
       swf.EventTypeSignalExternalWorkflowExecutionFailed
       value final output panics pending_activity_id pending_signal_id bump
       from_option id app].

Ltac go_step :=
  first
    [ progress go_unfold
    | rewrite checkInit_initialized
    | rewrite checkInit_run
    | rewrite decide_True by done
    | rewrite decide_False by done
    | rewrite lookup_insert_eq
    | rewrite lookup_delete_eq
    | case_decide ].

Ltac go := repeat go_step.

Lemma value_bind {A B} (m : M A) (f : A → M B) a v a' out :
  m a = Ok v a' out → value ((m ≫= f) a) = value (f v a').
Proof. intros H. unfold mbind, go_bind. rewrite H. by destruct (f v a'). Qed.

Lemma final_bind {A B} (m : M A) (f : A → M B) a v a' out :
  m a = Ok v a' out → final ((m ≫= f) a) = final (f v a').
Proof. intros H. unfold mbind, go_bind. rewrite H. by destruct (f v a'). Qed.

(** *** What [Track] does, kind by kind *)

Lemma Track_activity_scheduled p a k aid ty :
  Track p (activity_scheduled k aid ty) a
  = Ok tt
      {| Activities :=
           Some (<[FormatInt k := Some {| ActivityID := aid; ActivityType := ty |}]>
                   (activities a));
         ActivityAttempts := Some (activityAttempts a);
         Signals := Some (signals a);
         SignalAttempts := Some (signalAttempts a) |} [].
Proof. go. reflexivity. Qed.

Lemma Track_activity_completed p a e k :
  Track p (activity_completed e k) a
  = Ok tt
      {| Activities := Some (delete (FormatInt k) (activities a));
         ActivityAttempts :=
           Some (delete (pending_activity_id (activities a) (FormatInt k))
                   (activityAttempts a));
         Signals := Some (signals a);
         SignalAttempts := Some (signalAttempts a) |} [].
Proof.
  go. destruct (activities a !! FormatInt k) as [[?|]|]; go; done.
Qed.

Lemma Track_activity_canceled p a e k :
  Track p (activity_canceled e k) a
  = Ok tt
      {| Activities := Some (delete (FormatInt k) (activities a));
         ActivityAttempts :=
           Some (delete (pending_activity_id (activities a) (FormatInt k))
                   (activityAttempts a));
         Signals := Some (signals a);
         SignalAttempts := Some (signalAttempts a) |} [].
Proof.
  go. destruct (activities a !! FormatInt k) as [[?|]|]; go; done.
Qed.

Lemma Track_activity_failed p a e k :
  Track p (activity_failed e k) a
  = Ok tt
      {| Activities := Some (delete (FormatInt k) (activities a));
         ActivityAttempts :=
           Some (bump (pending_activity_id (activities a) (FormatInt k))
                   (activityAttempts a));
         Signals := Some (signals a);
         SignalAttempts := Some (signalAttempts a) |} [].
Proof.
  go; destruct (activities a !! FormatInt k) as [[?|]|]; go; done.
Qed.

Lemma Track_activity_timed_out p a e k :
  Track p (activity_timed_out e k) a
  = Ok tt
      {| Activities := Some (delete (FormatInt k) (activities a));
         ActivityAttempts :=
           Some (bump (pending_activity_id (activities a) (FormatInt k))
                   (activityAttempts a));
         Signals := Some (signals a);
         SignalAttempts := Some (signalAttempts a) |} [].
Proof.
  go; destruct (activities a !! FormatInt k) as [[?|]|]; go; done.
Qed.

Lemma Track_signal_initiated p a k name wid :
  ∃ line,
    Track p (signal_initiated k name wid) a
    = Ok tt
        {| Activities := Some (activities a);
           ActivityAttempts := Some (activityAttempts a);
           Signals :=
             Some (<[FormatInt k := Some {| SignalName := name; WorkflowID := wid |}]>
                     (signals a));
           SignalAttempts := Some (signalAttempts a) |} [line].
Proof. eexists. go. reflexivity. Qed.

Lemma Track_execution_signaled p a e k info :
  signals a !! FormatInt k = Some (Some info) →
  Track p (execution_signaled e k) a
  = Ok tt
      {| Activities := Some (activities a);
         ActivityAttempts := Some (activityAttempts a);
         Signals := Some (delete (FormatInt k) (signals a));
         SignalAttempts :=
           Some (delete (SignalName info +:+ "->" +:+ WorkflowID info)
                   (signalAttempts a)) |} [].
Proof. intros H. go. rewrite H. go. reflexivity. Qed.

Lemma Track_execution_signaled_nil p a e k :
  default None (signals a !! FormatInt k) = None →
  Track p (execution_signaled e k) a = Panic (init a) [].
Proof.
  intros H. go. destruct (signals a !! FormatInt k) as [[?|]|];
    try discriminate; go; reflexivity.
Qed.

Lemma Track_signal_failed p a e k :
  Track p (signal_failed e k) a
  = Ok tt
      {| Activities := Some (activities a);
         ActivityAttempts := Some (activityAttempts a);
         Signals := Some (delete (FormatInt k) (signals a));
         SignalAttempts :=
           Some (bump (pending_signal_id (signals a) (FormatInt k))
                   (signalAttempts a)) |} [].
Proof.
  go; destruct (signals a !! FormatInt k) as [[?|]|]; go; done.
Qed.

Lemma Track_unrecognized p a h ty :
  swf.EventType h = Some ty → ty ∉ recognized →
  Track p h a = Ok tt (init a) [].
Proof.
  intros Hty Hn. destruct h as [ety eid s c f t cn i sg sf].
  cbn in Hty. subst ety.
  unfold recognized in Hn. rewrite !not_elem_of_cons in Hn.
  destruct Hn as (?&?&?&?&?&?&?&?&_).
  go. reflexivity.
Qed.

(** *** The lookups and the attempt counts *)

Lemma activities_mk x y z w :
  activities (mkEventCorrelator (Some x) y z w) = x.
Proof. reflexivity. Qed.

Lemma activityAttempts_mk x y z w :
  activityAttempts (mkEventCorrelator x (Some y) z w) = y.
Proof. reflexivity. Qed.

Lemma signals_mk x y z w :
  signals (mkEventCorrelator x y (Some z) w) = z.
Proof. reflexivity. Qed.

Lemma signalAttempts_mk x y z w :
  signalAttempts (mkEventCorrelator x y z (Some w)) = w.
Proof. reflexivity. Qed.

Lemma init_mk x y z w :
  init (mkEventCorrelator (Some x) (Some y) (Some z) (Some w))
  = mkEventCorrelator (Some x) (Some y) (Some z) (Some w).
Proof. reflexivity. Qed.

Create Rewrite HintDb corr.
Hint Rewrite activities_mk activityAttempts_mk signals_mk signalAttempts_mk
  init_mk : corr.

Ltac in_list H :=
  repeat (apply elem_of_cons in H as [->|H]); try (by apply elem_of_nil in H).

Lemma ActivityInfo_terminal a e k h :
  h ∈ activity_terminals e k →
  EventCorrelator_ActivityInfo h a
  = Ok (default None (activities a !! FormatInt k)) (init a) [].
Proof. intros H. in_list H; go; reflexivity. Qed.

Lemma SignalInfo_terminal a e k h :
  h ∈ signal_terminals e k →
  EventCorrelator_SignalInfo h a
  = Ok (default None (signals a !! FormatInt k)) (init a) [].
Proof. intros H. in_list H; go; reflexivity. Qed.

Lemma AttemptsForActivity_run a info :
  AttemptsForActivity (Some info) a
  = Ok (default 0 (activityAttempts a !! ActivityID info)) (init a) [].
Proof. go. reflexivity. Qed.

Lemma AttemptsForSignal_run a info :
  AttemptsForSignal (Some info) a
  = Ok (default 0 (signalAttempts a
                   !! (SignalName info +:+ "->" +:+ WorkflowID info)))
       (init a) [].
Proof. go. reflexivity. Qed.

(** Every terminal event of an activity deletes the pending entry it
    refers to; so does every terminal event of a signal whose pending entry
    is there. *)
Lemma Track_activity_terminal p a e k h :
  h ∈ activity_terminals e k →
  ∃ atts,
    Track p h a
    = Ok tt
        {| Activities := Some (delete (FormatInt k) (activities a));
           ActivityAttempts := Some atts;
           Signals := Some (signals a);
           SignalAttempts := Some (signalAttempts a) |} [].
Proof.
  intros H. in_list H; eexists.
  - apply Track_activity_completed.
  - apply Track_activity_failed.
  - apply Track_activity_timed_out.
  - apply Track_activity_canceled.
Qed.

Lemma Track_signal_terminal p a e k h info :
  h ∈ signal_terminals e k →
  signals a !! FormatInt k = Some (Some info) →
  ∃ atts,
    Track p h a
    = Ok tt
        {| Activities := Some (activities a);
           ActivityAttempts := Some (activityAttempts a);
           Signals := Some (delete (FormatInt k) (signals a));
           SignalAttempts := Some atts |} [].
Proof.
  intros H Hk. in_list H; eexists.
  - by apply Track_execution_signaled.
  - apply Track_signal_failed.
Qed.

(** ** The zero value and the lookups *)

(** Case analysis on the type of an event, following the order of the
    switch in [getID]; [tac] is run in every case, with the attributes of
    the kind at hand split into nil and non-nil. *)
Ltac by_kind ty c f t cn sg sf tac :=
  destruct (decide (ty = swf.EventTypeActivityTaskCompleted)) as [->|?];
    [destruct c as [[[?|]]|]; tac|];
  destruct (decide (ty = swf.EventTypeActivityTaskFailed)) as [->|?];
    [destruct f as [[[?|]]|]; tac|];
  destruct (decide (ty = swf.EventTypeActivityTaskTimedOut)) as [->|?];
    [destruct t as [[[?|]]|]; tac|];
  destruct (decide (ty = swf.EventTypeActivityTaskCanceled)) as [->|?];
    [destruct cn as [[[?|]]|]; tac|];
  destruct (decide (ty = swf.EventTypeExternalWorkflowExecutionSignaled))
    as [->|?];
    [destruct sg as [[[?|]]|]; tac|];
  destruct (decide (ty = swf.EventTypeSignalExternalWorkflowExecutionFailed))
    as [->|?];
    [destruct sf as [[[?|]]|]; tac|];
  tac.

(** [getID] only reads: it returns a key or panics, and leaves the
    correlator as it was. *)
Lemma getID_reads h a :
  (∃ id, getID h a = Ok id a []) ∨ getID h a = Panic a [].
Proof.
  destruct h as [[ty|] eid s c f t cn i sg sf]; [|by right].
  by_kind ty c f t cn sg sf ltac:(go; eauto).
Qed.

(** With the referenced origin id present, [getID] returns. *)
Lemma getID_present h a :
  reference_present h = true → ∃ id, getID h a = Ok id a [].
Proof.
  destruct h as [[ty|] eid s c f t cn i sg sf]; [|done].
  unfold reference_present.
  by_kind ty c f t cn sg sf ltac:(go; cbn; by eauto).
Qed.

Lemma ActivityInfo_run h a id :
  getID h (init a) = Ok id (init a) [] →
  EventCorrelator_ActivityInfo h a
  = Ok (default None (activities a !! id)) (init a) [].
Proof.
  intros H. unfold EventCorrelator_ActivityInfo, mbind, go_bind.
  rewrite checkInit_run, H. reflexivity.
Qed.

Lemma SignalInfo_run h a id :
  getID h (init a) = Ok id (init a) [] →
  EventCorrelator_SignalInfo h a
  = Ok (default None (signals a !! id)) (init a) [].
Proof.
  intros H. unfold EventCorrelator_SignalInfo, mbind, go_bind.
  rewrite checkInit_run, H. reflexivity.
Qed.

Lemma ActivityInfo_final h a :
  final (EventCorrelator_ActivityInfo h a) = init a
  ∧ output (EventCorrelator_ActivityInfo h a) = [].
Proof.
  unfold EventCorrelator_ActivityInfo, mbind, go_bind. rewrite checkInit_run.
  by destruct (getID_reads h (init a)) as [[id ->]| ->].
Qed.

Lemma SignalInfo_final h a :
  final (EventCorrelator_SignalInfo h a) = init a
  ∧ output (EventCorrelator_SignalInfo h a) = [].
Proof.
  unfold EventCorrelator_SignalInfo, mbind, go_bind. rewrite checkInit_run.
  by destruct (getID_reads h (init a)) as [[id ->]| ->].
Qed.

(** [checkInit] keeps what the indices hold. *)
Lemma init_contents a :
  activities (init a) = activities a
  ∧ activityAttempts (init a) = activityAttempts a
  ∧ signals (init a) = signals a
  ∧ signalAttempts (init a) = signalAttempts a.
Proof. done. Qed.

(** C6.  On the zero value of the correlator as on a freshly constructed
    one, before any event is tracked, the two lookups return nil for every
    event whose referenced origin id is present, and the two attempt counts
    are 0 for every info; and each method, [Track] included, gives the same
    result on the zero value as on the fresh correlator. *)
Theorem zero_value_as_fresh p h info sinfo a :
  a ∈ [zero_value; fresh] →
  reference_present h = true →
  (value (EventCorrelator_ActivityInfo h a) = Some None
   ∧ value (EventCorrelator_SignalInfo h a) = Some None
   ∧ value (AttemptsForActivity (Some info) a) = Some 0
   ∧ value (AttemptsForSignal (Some sinfo) a) = Some 0)
  ∧ (EventCorrelator_ActivityInfo h zero_value
       = EventCorrelator_ActivityInfo h fresh
     ∧ EventCorrelator_SignalInfo h zero_value
       = EventCorrelator_SignalInfo h fresh
     ∧ AttemptsForActivity (Some info) zero_value
       = AttemptsForActivity (Some info) fresh
     ∧ AttemptsForSignal (Some sinfo) zero_value
       = AttemptsForSignal (Some sinfo) fresh
     ∧ Track p h zero_value = Track p h fresh).
Proof.
  intros Ha Hh. split.
  - destruct (getID_present h (init a) Hh) as [k Hk].
    rewrite (ActivityInfo_run _ _ _ Hk), (SignalInfo_run _ _ _ Hk).
    rewrite AttemptsForActivity_run, AttemptsForSignal_run.
    cbn [value].
    in_list Ha;
      cbv [activities activityAttempts signals signalAttempts zero_value
           fresh init Activities ActivityAttempts Signals SignalAttempts
           from_option id];
      by rewrite !lookup_empty.
  - split_and!; reflexivity.
Qed.

Lemma zero_value_as_fresh_witness :
  zero_value ∈ [zero_value; fresh]
  ∧ reference_present (activity_completed 2 1) = true
  ∧ value (EventCorrelator_ActivityInfo (activity_completed 2 1) zero_value)
    = Some None
  ∧ value (AttemptsForActivity (Some a1_info) zero_value) = Some 0.
Proof.
  assert (H1 : zero_value ∈ [zero_value; fresh]) by apply list_elem_of_here.
  assert (H2 : reference_present (activity_completed 2 1) = true)
    by reflexivity.
  split; [exact H1|]. split; [exact H2|].
  destruct (zero_value_as_fresh fmt_elided _ a1_info N_W_info _ H1 H2)
    as ((Ha & _ & Hb & _) & _).
  split; [exact Ha | exact Hb].
Defined.

(** ** Lookups and lazy initialization *)

(** C8, as stated, on the zero value: a lookup leaves the pending
    activities as an empty map where they were a nil map before. *)
Lemma lookup_changes_zero_value :
  final (EventCorrelator_ActivityInfo (activity_completed 2 1) zero_value)
    ≠ zero_value
  ∧ final (EventCorrelator_SignalInfo (execution_signaled 2 1) zero_value)
    ≠ zero_value.
Proof. split; vm_compute; discriminate. Qed.

(** C8, amended.  For every correlator and every event, the two lookups
    leave the correlator that [checkInit] leaves: every index holds what it
    held before, and an index that was a nil map is now an empty map; on a
    correlator without nil maps the state after the call is the state
    before it. *)
Theorem lookups_keep_contents h a :
  final (EventCorrelator_ActivityInfo h a) = init a
  ∧ final (EventCorrelator_SignalInfo h a) = init a
  ∧ (activities (init a) = activities a
     ∧ activityAttempts (init a) = activityAttempts a
     ∧ signals (init a) = signals a
     ∧ signalAttempts (init a) = signalAttempts a)
  ∧ (initialized a = true →
     final (EventCorrelator_ActivityInfo h a) = a
     ∧ final (EventCorrelator_SignalInfo h a) = a).
Proof.
  split_and!; try done.
  - apply ActivityInfo_final.
  - apply SignalInfo_final.
  - intros Hi. rewrite (proj1 (ActivityInfo_final h a)).
    rewrite (proj1 (SignalInfo_final h a)). by rewrite init_initialized.
Qed.

Lemma lookups_keep_contents_witness :
  initialized five_attempts = true
  ∧ final (EventCorrelator_ActivityInfo (activity_completed 2 1) five_attempts)
    = five_attempts
  ∧ final (EventCorrelator_SignalInfo (execution_signaled 2 1) five_attempts)
    = five_attempts.
Proof.
  assert (H : initialized five_attempts = true) by reflexivity.
  split; [exact H|].
  exact (proj2 (proj2 (proj2
    (lookups_keep_contents (activity_completed 2 1) five_attempts))) H).
Defined.

(** ** Pending entries are resolved once *)

(** C5.  After an activity is scheduled under event id [k], the lookup for
    any of the four activity terminal events that refer to [k] returns the
    scheduled activity id and type; once that terminal event has been
    tracked, the same lookup returns nil.  The same holds for a signal
    initiated under [k] and its two terminal events. *)
Theorem pending_entry_resolved_once p a k e aid ty name wid h s :
  h ∈ activity_terminals e k →
  s ∈ signal_terminals e k →
  value ((Track p (activity_scheduled k aid ty);;
          EventCorrelator_ActivityInfo h) a)
    = Some (Some {| ActivityID := aid; ActivityType := ty |})
  ∧ value ((Track p (activity_scheduled k aid ty);; Track p h;;
            EventCorrelator_ActivityInfo h) a)
    = Some None
  ∧ value ((Track p (signal_initiated k name wid);;
            EventCorrelator_SignalInfo s) a)
    = Some (Some {| SignalName := name; WorkflowID := wid |})
  ∧ value ((Track p (signal_initiated k name wid);; Track p s;;
            EventCorrelator_SignalInfo s) a)
    = Some None.
Proof.
  intros Hh Hs.
  pose proof (Track_activity_scheduled p a k aid ty) as Hsched.
  destruct (Track_signal_initiated p a k name wid) as [line Hinit].
  split_and!.
  - rewrite (value_bind _ _ _ _ _ _ Hsched).
    rewrite (ActivityInfo_terminal _ _ _ _ Hh). cbn [value].
    autorewrite with corr. by rewrite lookup_insert_eq.
  - rewrite (value_bind _ _ _ _ _ _ Hsched).
    edestruct (Track_activity_terminal p) as [atts Hterm]; [exact Hh|].
    rewrite (value_bind _ _ _ _ _ _ Hterm).
    rewrite (ActivityInfo_terminal _ _ _ _ Hh). cbn [value].
    autorewrite with corr. by rewrite lookup_delete_eq.
  - rewrite (value_bind _ _ _ _ _ _ Hinit).
    rewrite (SignalInfo_terminal _ _ _ _ Hs). cbn [value].
    autorewrite with corr. by rewrite lookup_insert_eq.
  - rewrite (value_bind _ _ _ _ _ _ Hinit).
    destruct (Track_signal_terminal p
                {| Activities := Some (activities a);
                   ActivityAttempts := Some (activityAttempts a);
                   Signals :=
                     Some (<[FormatInt k :=
                               Some {| SignalName := name; WorkflowID := wid |}]>
                             (signals a));
                   SignalAttempts := Some (signalAttempts a) |}
                e k s _ Hs (lookup_insert_eq _ _ _)) as [atts Hterm].
    rewrite (value_bind _ _ _ _ _ _ Hterm).
    rewrite (SignalInfo_terminal _ _ _ _ Hs). cbn [value].
    autorewrite with corr. by rewrite lookup_delete_eq.
Qed.

Lemma pending_entry_resolved_once_witness :
  activity_failed 11 10 ∈ activity_terminals 11 10
  ∧ signal_failed 11 10 ∈ signal_terminals 11 10
  ∧ value ((Track fmt_elided (activity_scheduled 10 "a1" foo_1);;
            EventCorrelator_ActivityInfo (activity_failed 11 10)) zero_value)
    = Some (Some a1_info)
  ∧ value ((Track fmt_elided (activity_scheduled 10 "a1" foo_1);;
            Track fmt_elided (activity_failed 11 10);;
            EventCorrelator_ActivityInfo (activity_failed 11 10)) zero_value)
    = Some None.
Proof.
  assert (H1 : activity_failed 11 10 ∈ activity_terminals 11 10)
    by (apply list_elem_of_further, list_elem_of_here).
  assert (H2 : signal_failed 11 10 ∈ signal_terminals 11 10)
    by (apply list_elem_of_further, list_elem_of_here).
  split; [exact H1|]. split; [exact H2|].
  destruct (pending_entry_resolved_once fmt_elided zero_value 10 11 "a1" foo_1
              "N" "W" _ _ H1 H2) as (Ha & Hb & _).
  split; [exact Ha | exact Hb].
Defined.

Ltac tracked lem :=
  first [ erewrite value_bind by (apply lem)
        | erewrite final_bind by (apply lem)
        | rewrite lem ];
  autorewrite with corr.

Lemma signal_id_nonempty name wid : name +:+ "->" +:+ wid ≠ "".
Proof. by destruct name. Qed.

Lemma int_incr_0 : int_incr 0 = 1.
Proof. reflexivity. Qed.

Lemma pending_activity_id_insert acts k info :
  pending_activity_id (<[k := Some info]> acts) k = ActivityID info.
Proof. unfold pending_activity_id. by rewrite lookup_insert_eq. Qed.

Lemma pending_signal_id_insert sigs k info :
  pending_signal_id (<[k := Some info]> sigs) k
  = SignalName info +:+ "->" +:+ WorkflowID info.
Proof. unfold pending_signal_id. by rewrite lookup_insert_eq. Qed.

(** ** Success and cancellation clear the attempt counter *)

(** C3.  Whatever attempts a correlator has recorded for an activity id,
    after the activity is scheduled under event id [k] and then completed
    or canceled by an event referring to [k], the attempt count of that
    activity id is 0: its counter entry is deleted. *)
Theorem success_clears_activity_attempts p a k e aid ty ty' h :
  h ∈ activity_successes e k →
  value ((Track p (activity_scheduled k aid ty);; Track p h;;
          AttemptsForActivity (Some {| ActivityID := aid; ActivityType := ty' |})) a)
    = Some 0
  ∧ activityAttempts
      (final ((Track p (activity_scheduled k aid ty);; Track p h) a)) !! aid
    = None.
Proof.
  intros H. split.
  - tracked Track_activity_scheduled.
    in_list H;
      [tracked Track_activity_completed | tracked Track_activity_canceled];
      rewrite AttemptsForActivity_run; cbn [value ActivityID];
      autorewrite with corr; rewrite pending_activity_id_insert;
      cbn [ActivityID]; by rewrite lookup_delete_eq.
  - tracked Track_activity_scheduled.
    in_list H;
      [tracked Track_activity_completed | tracked Track_activity_canceled];
      cbn [final]; autorewrite with corr; rewrite pending_activity_id_insert;
      cbn [ActivityID]; by rewrite lookup_delete_eq.
Qed.

Lemma success_clears_activity_attempts_witness :
  activity_completed 31 30 ∈ activity_successes 31 30
  ∧ value (AttemptsForActivity (Some a1_info) five_attempts) = Some 5
  ∧ value ((Track fmt_elided (activity_scheduled 30 "a1" foo_1);;
            Track fmt_elided (activity_completed 31 30);;
            AttemptsForActivity (Some a1_info)) five_attempts)
    = Some 0.
Proof.
  assert (H : activity_completed 31 30 ∈ activity_successes 31 30)
    by apply list_elem_of_here.
  split; [exact H|]. split; [vm_compute; reflexivity|].
  exact (proj1 (success_clears_activity_attempts fmt_elided five_attempts
                  30 31 "a1" foo_1 foo_1 _ H)).
Defined.

(** ** Signal attempts are counted per signal name and target workflow *)

(** C4.  After a signal [name] to workflow [wid] is initiated under event
    id [k1], the lookup for the signaled event that refers to [k1] returns
    that name and workflow; once that event is tracked the attempt count of
    the pair is 0; after the same signal is initiated again under [k2] and
    its delivery fails, the count is 1, recorded under the key
    [name->wid]. *)
Theorem signal_attempts_by_name_and_workflow p a k1 e1 k2 e2 name wid :
  let info := {| SignalName := name; WorkflowID := wid |} in
  let delivered :=
    (Track p (signal_initiated k1 name wid);;
     Track p (execution_signaled e1 k1)) : M unit in
  let failed :=
    (delivered;; Track p (signal_initiated k2 name wid);;
     Track p (signal_failed e2 k2)) : M unit in
  value ((Track p (signal_initiated k1 name wid);;
          EventCorrelator_SignalInfo (execution_signaled e1 k1)) a)
    = Some (Some info)
  ∧ value ((delivered;; AttemptsForSignal (Some info)) a) = Some 0
  ∧ value ((failed;; AttemptsForSignal (Some info)) a) = Some 1
  ∧ signalAttempts (final (failed a)) !! (name +:+ "->" +:+ wid) = Some 1.
Proof.
  intros info delivered failed.
  destruct (Track_signal_initiated p a k1 name wid) as [line1 Hinit1].
  assert (Hdelivered : ∃ out,
    delivered a
    = Ok tt
        {| Activities := Some (activities a);
           ActivityAttempts := Some (activityAttempts a);
           Signals := Some (delete (FormatInt k1)
                              (<[FormatInt k1 := Some info]> (signals a)));
           SignalAttempts :=
             Some (delete (name +:+ "->" +:+ wid) (signalAttempts a)) |} out).
  { eexists. unfold delivered, mbind, go_bind. rewrite Hinit1.
    erewrite Track_execution_signaled
      by (autorewrite with corr; apply lookup_insert_eq).
    autorewrite with corr. reflexivity. }
  destruct Hdelivered as [out1 Hdelivered].
  assert (Hfailed : ∃ out,
    failed a
    = Ok tt
        {| Activities := Some (activities a);
           ActivityAttempts := Some (activityAttempts a);
           Signals :=
             Some (delete (FormatInt k2)
                     (<[FormatInt k2 := Some info]>
                        (delete (FormatInt k1)
                           (<[FormatInt k1 := Some info]> (signals a)))));
           SignalAttempts :=
             Some (<[name +:+ "->" +:+ wid := 1]>
                     (delete (name +:+ "->" +:+ wid) (signalAttempts a))) |}
        out).
  { match type of Hdelivered with
    | _ = Ok _ ?st _ =>
        destruct (Track_signal_initiated p st k2 name wid) as [line2 Hinit2]
    end.
    eexists. unfold failed, mbind, go_bind. rewrite Hdelivered.
    unfold mbind, go_bind in Hinit2 |- *. rewrite Hinit2.
    rewrite Track_signal_failed. autorewrite with corr.
    rewrite pending_signal_id_insert. cbn [SignalName WorkflowID info].
    unfold bump. rewrite decide_True by apply signal_id_nonempty.
    rewrite lookup_delete_eq. cbn [default from_option id].
    rewrite int_incr_0. reflexivity. }
  destruct Hfailed as [out2 Hfailed].
  split_and!.
  - tracked Hinit1.
    rewrite (SignalInfo_terminal _ e1 k1) by apply list_elem_of_here.
    cbn [value]. autorewrite with corr. by rewrite lookup_insert_eq.
  - tracked Hdelivered. rewrite AttemptsForSignal_run. cbn [value].
    autorewrite with corr. by rewrite lookup_delete_eq.
  - tracked Hfailed. rewrite AttemptsForSignal_run. cbn [value].
    autorewrite with corr. by rewrite lookup_insert_eq.
  - rewrite Hfailed. cbn [final]. autorewrite with corr.
    apply lookup_insert_eq.
Qed.

(** In general a failed delivery adds one to whatever the pair counted
    before. *)
Lemma failed_signal_cycle_run p a k e name wid :
  ∃ out,
    (Track p (signal_initiated k name wid);; Track p (signal_failed e k)) a
    = Ok tt
        {| Activities := Some (activities a);
           ActivityAttempts := Some (activityAttempts a);
           Signals :=
             Some (delete (FormatInt k)
                     (<[FormatInt k :=
                          Some {| SignalName := name; WorkflowID := wid |}]>
                        (signals a)));
           SignalAttempts :=
             Some (<[name +:+ "->" +:+ wid :=
                       int_incr (default 0 (signalAttempts a
                                            !! (name +:+ "->" +:+ wid)))]>
                     (signalAttempts a)) |} out.
Proof.
  destruct (Track_signal_initiated p a k name wid) as [line Hinit].
  eexists. unfold mbind, go_bind. rewrite Hinit, Track_signal_failed.
  autorewrite with corr. rewrite pending_signal_id_insert.
  cbn [SignalName WorkflowID]. unfold bump.
  rewrite decide_True by apply signal_id_nonempty. reflexivity.
Qed.

(** ** Activity attempts are counted per activity id *)

Lemma activity_failure_run p a e k h :
  h ∈ activity_failures e k →
  Track p h a
  = Ok tt
      {| Activities := Some (delete (FormatInt k) (activities a));
         ActivityAttempts :=
           Some (bump (pending_activity_id (activities a) (FormatInt k))
                   (activityAttempts a));
         Signals := Some (signals a);
         SignalAttempts := Some (signalAttempts a) |} [].
Proof.
  intros H. in_list H;
    [apply Track_activity_failed | apply Track_activity_timed_out].
Qed.

(** One cycle of scheduling an activity and seeing it fail or time out
    raises the attempt count of its activity id by one. *)
Lemma failed_cycle_run p a k e aid ty h :
  aid ≠ "" → h ∈ activity_failures e k →
  (Track p (activity_scheduled k aid ty);; Track p h) a
  = Ok tt
      {| Activities :=
           Some (delete (FormatInt k)
                   (<[FormatInt k := Some {| ActivityID := aid; ActivityType := ty |}]>
                      (activities a)));
         ActivityAttempts :=
           Some (<[aid := int_incr (default 0 (activityAttempts a !! aid))]>
                   (activityAttempts a));
         Signals := Some (signals a);
         SignalAttempts := Some (signalAttempts a) |} [].
Proof.
  intros Hne H. unfold mbind, go_bind.
  rewrite Track_activity_scheduled, (activity_failure_run _ _ _ _ _ H).
  autorewrite with corr. rewrite pending_activity_id_insert.
  cbn [ActivityID]. unfold bump. by rewrite decide_True.
Qed.

(** C2, as stated, at a correlator that already counts five attempts of
    [a1]: after one more failed cycle the count is 6, not 1. *)
Lemma attempts_after_first_failure_not_always_1 :
  value ((Track fmt_elided (activity_scheduled 10 "a1" foo_1);;
          Track fmt_elided (activity_failed 11 10);;
          AttemptsForActivity (Some a1_info)) five_attempts)
    = Some 6
  ∧ value ((Track fmt_elided (activity_scheduled 10 "a1" foo_1);;
            Track fmt_elided (activity_failed 11 10);;
            AttemptsForActivity (Some a1_info)) five_attempts)
    ≠ Some 1.
Proof. split; [vm_compute; reflexivity | vm_compute; discriminate]. Qed.

(** C2, amended.  Attempts are counted per activity id, across scheduling
    event ids: if the attempt count of a non-empty activity id is [n], then
    after the activity is scheduled under [k1] and fails or times out the
    count is [n + 1], and after it is scheduled again under [k2] and fails
    or times out again it is [n + 2]; so 1 and then 2 when no attempt was
    recorded before.  The sums are those of [int]: they are exact as long
    as they fit. *)
Theorem activity_attempts_accumulate p a k1 e1 k2 e2 aid ty1 ty2 ty h1 h2 n :
  let info := {| ActivityID := aid; ActivityType := ty |} in
  aid ≠ "" →
  h1 ∈ activity_failures e1 k1 →
  h2 ∈ activity_failures e2 k2 →
  value (AttemptsForActivity (Some info) a) = Some n →
  value ((Track p (activity_scheduled k1 aid ty1);; Track p h1;;
          AttemptsForActivity (Some info)) a)
    = Some (int_incr n)
  ∧ value ((Track p (activity_scheduled k1 aid ty1);; Track p h1;;
            Track p (activity_scheduled k2 aid ty2);; Track p h2;;
            AttemptsForActivity (Some info)) a)
    = Some (int_incr (int_incr n))
  ∧ (0 ≤ n < 2 ^ 63 - 2 →
     int_incr n = n + 1 ∧ int_incr (int_incr n) = n + 2).
Proof.
  intros info Hne H1 H2 Hn.
  rewrite AttemptsForActivity_run in Hn. cbn [value ActivityID info] in Hn.
  injection Hn as Hn.
  pose proof (failed_cycle_run p a k1 e1 aid ty1 h1 Hne H1) as Hc1.
  assert (Hassoc : ∀ {A} (m1 m2 : M unit) (k : M A) b,
             ((m1;; m2);; k) b = (m1;; m2;; k) b).
  { intros A m1 m2 k b. unfold mbind, go_bind.
    destruct (m1 b) as [[] b1 o1|]; [|done].
    destruct (m2 b1) as [[] b2 o2|]; [|done].
    destruct (k b2); by rewrite (assoc_L (++)). }
  split_and!.
  - rewrite <- Hassoc. tracked Hc1.
    rewrite AttemptsForActivity_run. cbn [value ActivityID info].
    autorewrite with corr. rewrite lookup_insert_eq. cbn. by rewrite Hn.
  - rewrite <- Hassoc. tracked Hc1. rewrite <- Hassoc.
    erewrite value_bind by (by apply (failed_cycle_run _ _ k2 e2)).
    rewrite AttemptsForActivity_run. cbn [value ActivityID info].
    autorewrite with corr. rewrite !lookup_insert_eq. cbn. by rewrite Hn.
  - intros Hrange. unfold int_incr, int_wrap.
    rewrite (Z.mod_small (n + 1 + 2 ^ 63)) by lia.
    replace (n + 1 + 2 ^ 63 - 2 ^ 63) with (n + 1) by lia.
    rewrite (Z.mod_small (n + 1 + 1 + 2 ^ 63)) by lia. lia.
Qed.

Lemma activity_attempts_accumulate_witness :
  "a1" ≠ ""
  ∧ activity_failed 11 10 ∈ activity_failures 11 10
  ∧ activity_timed_out 21 20 ∈ activity_failures 21 20
  ∧ value (AttemptsForActivity (Some a1_info) zero_value) = Some 0
  ∧ value ((Track fmt_elided (activity_scheduled 10 "a1" foo_1);;
            Track fmt_elided (activity_failed 11 10);;
            AttemptsForActivity (Some a1_info)) zero_value)
    = Some 1
  ∧ value ((Track fmt_elided (activity_scheduled 10 "a1" foo_1);;
            Track fmt_elided (activity_failed 11 10);;
            Track fmt_elided (activity_scheduled 20 "a1" foo_1);;
            Track fmt_elided (activity_timed_out 21 20);;
            AttemptsForActivity (Some a1_info)) zero_value)
    = Some 2.
Proof.
  assert (H0 : "a1" ≠ "") by discriminate.
  assert (H1 : activity_failed 11 10 ∈ activity_failures 11 10)
    by apply list_elem_of_here.
  assert (H2 : activity_timed_out 21 20 ∈ activity_failures 21 20)
    by apply list_elem_of_further, list_elem_of_here.
  assert (H3 : value (AttemptsForActivity (Some a1_info) zero_value) = Some 0)
    by reflexivity.
  split; [exact H0|]. split; [exact H1|]. split; [exact H2|].
  split; [exact H3|].
  destruct (activity_attempts_accumulate fmt_elided zero_value 10 11 20 21
              "a1" foo_1 foo_1 foo_1 _ _ 0 H0 H1 H2 H3) as (Ha & Hb & _).
  split; [exact Ha | exact Hb].
Defined.

(** ** Events of other kinds *)

Lemma WorkflowExecutionStarted_unrecognized :
  "WorkflowExecutionStarted" ∉ recognized.
Proof.
  unfold recognized. rewrite !not_elem_of_cons.
  split_and!; try discriminate. apply not_elem_of_nil.
Qed.

(** C7, as stated, on the zero value: tracking an event of a kind that the
    correlator does not act on leaves empty maps where nil maps were. *)
Lemma unrecognized_event_changes_zero_value :
  ("WorkflowExecutionStarted" ∉ recognized)
  ∧ Activities zero_value = None
  ∧ Activities
      (final (Track fmt_elided (no_attributes "WorkflowExecutionStarted" 1)
                zero_value))
    = Some ∅
  ∧ final (Track fmt_elided (no_attributes "WorkflowExecutionStarted" 1)
             zero_value)
    ≠ zero_value.
Proof.
  split_and!; [|reflexivity|reflexivity|vm_compute; discriminate].
  apply WorkflowExecutionStarted_unrecognized.
Qed.

(** C7, amended.  For every event whose type is none of the eight kinds
    that [Track] acts on, [Track] returns without printing and leaves the
    correlator that [checkInit] leaves: all four indices hold what they
    held before, a nil map having become an empty map; on a correlator
    without nil maps the state is unchanged; and tracking the event twice
    gives the same as tracking it once. *)
Theorem unrecognized_event_ignored p a h ty :
  swf.EventType h = Some ty →
  ty ∉ recognized →
  Track p h a = Ok tt (init a) []
  ∧ (activities (init a) = activities a
     ∧ activityAttempts (init a) = activityAttempts a
     ∧ signals (init a) = signals a
     ∧ signalAttempts (init a) = signalAttempts a)
  ∧ (initialized a = true → Track p h a = Ok tt a [])
  ∧ (Track p h;; Track p h) a = Track p h a.
Proof.
  intros Hty Hn.
  pose proof (Track_unrecognized p a h ty Hty Hn) as Hrun.
  split_and!; try done.
  - intros Hi. by rewrite Hrun, init_initialized.
  - unfold mbind, go_bind. rewrite Hrun.
    by rewrite (Track_unrecognized p (init a) h ty Hty Hn).
Qed.

Lemma unrecognized_event_ignored_witness :
  swf.EventType (no_attributes "WorkflowExecutionStarted" 1)
    = Some "WorkflowExecutionStarted"
  ∧ ("WorkflowExecutionStarted" ∉ recognized)
  ∧ initialized five_attempts = true
  ∧ Track fmt_elided (no_attributes "WorkflowExecutionStarted" 1) five_attempts
    = Ok tt five_attempts [].
Proof.
  assert (H1 : swf.EventType (no_attributes "WorkflowExecutionStarted" 1)
               = Some "WorkflowExecutionStarted") by reflexivity.
  assert (H2 : "WorkflowExecutionStarted" ∉ recognized)
    by exact WorkflowExecutionStarted_unrecognized.
  assert (H3 : initialized five_attempts = true) by reflexivity.
  split; [exact H1|]. split; [exact H2|]. split; [exact H3|].
  exact (proj1 (proj2 (proj2
    (unrecognized_event_ignored fmt_elided five_attempts _ _ H1 H2))) H3).
Defined.

(** ** The attempt counts need an info *)

(** C10.  [AttemptsForActivity] and [AttemptsForSignal] dereference the
    info they are given: with a nil info both panic (after [checkInit]);
    with an info whose identity has no counter entry both return 0. *)
Theorem attempts_require_info a :
  AttemptsForActivity None a = Panic (init a) []
  ∧ AttemptsForSignal None a = Panic (init a) []
  ∧ (∀ info, activityAttempts a !! ActivityID info = None →
       AttemptsForActivity (Some info) a = Ok 0 (init a) [])
  ∧ (∀ info,
       signalAttempts a !! (SignalName info +:+ "->" +:+ WorkflowID info)
         = None →
       AttemptsForSignal (Some info) a = Ok 0 (init a) []).
Proof.
  split_and!.
  - go. reflexivity.
  - go. reflexivity.
  - intros info H. by rewrite AttemptsForActivity_run, H.
  - intros info H. by rewrite AttemptsForSignal_run, H.
Qed.

Lemma attempts_require_info_witness :
  activityAttempts zero_value !! ActivityID a1_info = None
  ∧ AttemptsForActivity (Some a1_info) zero_value = Ok 0 fresh []
  ∧ AttemptsForActivity None zero_value = Panic fresh [].
Proof.
  assert (H : activityAttempts zero_value !! ActivityID a1_info = None)
    by reflexivity.
  split; [exact H|].
  destruct (attempts_require_info zero_value) as (Hnil & _ & Hsome & _).
  split; [exact (Hsome a1_info H) | exact Hnil].
Defined.

(** ** No counter under the empty activity id

    [safeActivityID] returns the empty string for "no pending entry", and
    [incrementActivityAttempts] skips it, so [Track] never records a
    counter under the empty activity id: no such counter exists at any
    point of a replay that starts from the zero value. *)

Section Preserves.

Context (P : EventCorrelator → Prop).

Lemma preserves_ret {A} (v : A) : preserves P (mret v).
Proof. by intros a. Qed.

Lemma preserves_panic {A} : preserves P (@panic A).
Proof. by intros a. Qed.

Lemma preserves_get : preserves P get.
Proof. by intros a. Qed.

Lemma preserves_stdout_write line : preserves P (stdout_write line).
Proof. by intros a. Qed.

Lemma preserves_deref {A} (o : option A) : preserves P (deref o).
Proof. by destruct o as [v|]; intros b. Qed.

Lemma preserves_modify f : (∀ a, P a → P (f a)) → preserves P (modify f).
Proof. intros H a. apply H. Qed.

Lemma preserves_bind {A B} (m : M A) (f : A → M B) :
  preserves P m → (∀ v, preserves P (f v)) → preserves P (m ≫= f).
Proof.
  intros Hm Hf a Ha. specialize (Hm a Ha). unfold mbind, go_bind.
  destruct (m a) as [v b o|b o]; cbn in Hm; [|done].
  specialize (Hf v b Hm). by destruct (f v b).
Qed.

Lemma preserves_key eventID : preserves P (key eventID).
Proof.
  apply preserves_bind; [apply preserves_deref|].
  intros v. apply preserves_ret.
Qed.

Lemma preserves_getID h : preserves P (getID h).
Proof.
  intros a Ha. by destruct (getID_reads h a) as [[k ->]| ->].
Qed.

End Preserves.

(** Walk through a method, bind by bind; [leaf] closes the steps that
    have a lemma of their own. *)
Ltac preserved_with leaf :=
  repeat first
    [ leaf
    | apply preserves_bind; [|intros ?]
    | apply preserves_ret | apply preserves_get | apply preserves_panic
    | apply preserves_stdout_write | apply preserves_deref | apply preserves_key
    | apply preserves_getID
    | case_decide | case_match ].

Ltac preserved := preserved_with fail.

Lemma checkInit_no_empty_id : preserves no_empty_id checkInit.
Proof. intros a Ha. by rewrite checkInit_run. Qed.

Lemma safeActivityID_reads h a :
  (∃ id, safeActivityID h a = Ok id a []) ∨ safeActivityID h a = Panic a [].
Proof.
  unfold safeActivityID, mbind, go_bind.
  destruct (getID_reads h a) as [[k ->]| ->]; [left|by right].
  cbn [get]. destruct (map_index None (Activities a) k); by eexists.
Qed.

Lemma safeSignalID_reads h a :
  (∃ id, safeSignalID h a = Ok id a []) ∨ safeSignalID h a = Panic a [].
Proof.
  unfold safeSignalID, mbind, go_bind.
  destruct (getID_reads h a) as [[k ->]| ->]; [left|by right].
  cbn [get]. destruct (map_index None (Signals a) k); by eexists.
Qed.

Lemma incrementActivityAttempts_no_empty_id h :
  preserves no_empty_id (incrementActivityAttempts h).
Proof.
  intros a Ha. unfold incrementActivityAttempts, mbind, go_bind.
  destruct (safeActivityID_reads h a) as [[k ->]| ->]; [|done].
  case_decide; [|done]. cbn [get]. unfold incr_entry.
  destruct a as [acts [atts|] sigs satts]; [|done].
  cbn. unfold no_empty_id in *. cbn in *. by rewrite lookup_insert_ne.
Qed.

Lemma incrementSignalAttempts_no_empty_id h :
  preserves no_empty_id (incrementSignalAttempts h).
Proof.
  intros a Ha. unfold incrementSignalAttempts, mbind, go_bind.
  destruct (safeSignalID_reads h a) as [[k ->]| ->]; [|done].
  case_decide; [|done]. cbn [get]. unfold incr_entry.
  by destruct a as [acts atts sigs [satts|]].
Qed.

Lemma safeActivityID_no_empty_id h : preserves no_empty_id (safeActivityID h).
Proof.
  intros a Ha. by destruct (safeActivityID_reads h a) as [[k ->]| ->].
Qed.

Lemma RemoveCorrelation_no_empty_id h :
  preserves no_empty_id (RemoveCorrelation h).
Proof.
  unfold RemoveCorrelation, signalIDFromInfo,
    delete_ActivityAttempts, delete_Activities, delete_SignalAttempts,
    delete_Signals.
  apply preserves_bind; [apply checkInit_no_empty_id|]. intros _.
  preserved_with
    ltac:(first [ apply incrementActivityAttempts_no_empty_id
                | apply incrementSignalAttempts_no_empty_id
                | apply safeActivityID_no_empty_id ]);
    try (apply preserves_modify; intros b Hb; exact Hb).
  all: apply preserves_modify; intros b Hb; unfold no_empty_id in *.
  all: destruct b as [acts [atts|] sigs satts]; cbn in *; [|done].
  all: by apply lookup_delete_None; right.
Qed.

Lemma Correlate_no_empty_id p h : preserves no_empty_id (Correlate p h).
Proof.
  unfold Correlate.
  apply preserves_bind; [apply checkInit_no_empty_id|]. intros _.
  preserved; apply preserves_modify; intros b Hb; exact Hb.
Qed.

Lemma Track_no_empty_id p h : preserves no_empty_id (Track p h).
Proof.
  apply preserves_bind; [apply RemoveCorrelation_no_empty_id|].
  intros _. apply Correlate_no_empty_id.
Qed.

Lemma TrackAll_no_empty_id p hs : preserves no_empty_id (TrackAll p hs).
Proof.
  induction hs as [|h hs IH]; [apply preserves_ret|].
  apply preserves_bind; [apply Track_no_empty_id | intros _; apply IH].
Qed.

Lemma replay_no_empty_id p hs :
  no_empty_id (final (TrackAll p hs zero_value)).
Proof. by apply TrackAll_no_empty_id. Qed.

(** ** Terminal events without a pending entry *)

Lemma pending_activity_id_absent acts k :
  acts !! k = None → pending_activity_id acts k = "".
Proof. intros H. unfold pending_activity_id. by rewrite H. Qed.

Lemma pending_signal_id_absent sigs k :
  sigs !! k = None → pending_signal_id sigs k = "".
Proof. intros H. unfold pending_signal_id. by rewrite H. Qed.

Lemma bump_empty_id m : bump "" m = m.
Proof. reflexivity. Qed.

(** Whatever the correlator, a signaled event that refers to an origin
    without pending entry makes [Track] panic: [RemoveCorrelation] hands
    the nil info to [signalIDFromInfo], where the failed-delivery path goes
    through [safeSignalID]. *)
Lemma Track_execution_signaled_unmatched p a e k :
  signals a !! FormatInt k = None →
  Track p (execution_signaled e k) a = Panic (init a) [].
Proof. intros H. apply Track_execution_signaled_nil. by rewrite H. Qed.

(** C1, as stated: on a fresh correlator the signaled event that refers
    to an unknown origin panics; and on the zero value a failed event that
    refers to an unknown origin leaves a state that differs from the one
    before the call. *)
Lemma unmatched_terminal_not_always_noop :
  (signals fresh !! FormatInt 1 = None
   ∧ Track fmt_elided (execution_signaled 2 1) fresh = Panic fresh [])
  ∧ (activities zero_value !! FormatInt 10 = None
     ∧ final (Track fmt_elided (activity_failed 11 10) zero_value)
       ≠ zero_value).
Proof.
  split_and!; [reflexivity | reflexivity | reflexivity
              | vm_compute; discriminate].
Qed.

(** C1, amended.  For an activity completed, failed, timed out or canceled
    event, and for a signal delivery failed event, that refers to an origin
    event id without pending entry: [Track] returns without panic and
    without printing and leaves the correlator that [checkInit] leaves, so
    every pending index and every attempt counter holds what it held
    before, a nil map having become an empty map; on a correlator without
    nil maps the state is the one before the call.  A completed or canceled
    event deletes the counter under the empty activity id, so for these two
    the correlator must record none. *)
Theorem unmatched_terminal_is_noop p a e k h :
  h ∈ activity_terminals e k ∧ activities a !! FormatInt k = None
  ∨ h = signal_failed e k ∧ signals a !! FormatInt k = None →
  (h ∈ activity_successes e k → no_empty_id a) →
  Track p h a = Ok tt (init a) []
  ∧ (activities (init a) = activities a
     ∧ activityAttempts (init a) = activityAttempts a
     ∧ signals (init a) = signals a
     ∧ signalAttempts (init a) = signalAttempts a)
  ∧ (initialized a = true → Track p h a = Ok tt a []).
Proof.
  intros Hh Hempty.
  assert (Hrun : Track p h a = Ok tt (init a) []).
  { destruct Hh as [[Hh Hk]|[-> Hk]].
    - assert (Hact : delete (FormatInt k) (activities a) = activities a)
        by by apply delete_id.
      in_list Hh.
      + rewrite Track_activity_completed, Hact.
        rewrite (pending_activity_id_absent _ _ Hk), delete_id; [done|].
        apply Hempty, list_elem_of_here.
      + rewrite Track_activity_failed, Hact.
        by rewrite (pending_activity_id_absent _ _ Hk), bump_empty_id.
      + rewrite Track_activity_timed_out, Hact.
        by rewrite (pending_activity_id_absent _ _ Hk), bump_empty_id.
      + rewrite Track_activity_canceled, Hact.
        rewrite (pending_activity_id_absent _ _ Hk), delete_id; [done|].
        apply Hempty, list_elem_of_further, list_elem_of_here.
    - rewrite Track_signal_failed, (pending_signal_id_absent _ _ Hk).
      by rewrite bump_empty_id, delete_id. }
  split_and!; try done.
  intros Hi. by rewrite Hrun, init_initialized.
Qed.

Lemma unmatched_terminal_is_noop_witness :
  (activity_completed 11 10 ∈ activity_terminals 11 10
   ∧ activities five_attempts !! FormatInt 10 = None)
  ∧ (activity_completed 11 10 ∈ activity_successes 11 10
     → no_empty_id five_attempts)
  ∧ initialized five_attempts = true
  ∧ Track fmt_elided (activity_completed 11 10) five_attempts
    = Ok tt five_attempts [].
Proof.
  assert (H1 : activity_completed 11 10 ∈ activity_terminals 11 10)
    by apply list_elem_of_here.
  assert (H2 : activities five_attempts !! FormatInt 10 = None)
    by reflexivity.
  assert (H3 : activity_completed 11 10 ∈ activity_successes 11 10
               → no_empty_id five_attempts) by (intros _; reflexivity).
  assert (H4 : initialized five_attempts = true) by reflexivity.
  split; [exact (conj H1 H2)|]. split; [exact H3|]. split; [exact H4|].
  exact (proj2 (proj2
    (unmatched_terminal_is_noop fmt_elided five_attempts 11 10 _
       (or_introl (conj H1 H2)) H3)) H4).
Defined.

(** ** Replays are deterministic *)

Lemma same_effect_bind {A B} (m1 m2 : M A) (f1 f2 : A → M B) a :
  same_effect (m1 a) (m2 a) →
  (∀ v b, same_effect (f1 v b) (f2 v b)) →
  same_effect ((m1 ≫= f1) a) ((m2 ≫= f2) a).
Proof.
  unfold same_effect, mbind, go_bind. intros [Hv Hf] Hk.
  destruct (m1 a) as [v1 b1 o1|b1 o1], (m2 a) as [v2 b2 o2|b2 o2];
    cbn in Hv, Hf; simplify_eq; [|done].
  destruct (Hk v2 b2) as [Hv' Hf'].
  by destruct (f1 v2 b2), (f2 v2 b2).
Qed.

(** What [Correlate] prints depends on the rendering of the pending
    signals; what it returns and the correlator it leaves do not. *)
Lemma Correlate_same_effect p1 p2 h a :
  same_effect (Correlate p1 h a) (Correlate p2 h a).
Proof.
  unfold Correlate.
  apply same_effect_bind; [done|]. intros _ b.
  apply same_effect_bind; [done|]. intros ty b1.
  apply same_effect_bind; [done|]. intros _ b2.
  apply same_effect_bind; [done|]. intros ty' b3.
  case_decide; [|done].
  repeat (apply same_effect_bind; [done|]; intros ? ?).
  done.
Qed.

Lemma Track_same_effect p1 p2 h a :
  same_effect (Track p1 h a) (Track p2 h a).
Proof.
  unfold Track. apply same_effect_bind; [done|]. intros _ b.
  apply Correlate_same_effect.
Qed.

Lemma TrackAll_same_effect p1 p2 hs a :
  same_effect (TrackAll p1 hs a) (TrackAll p2 hs a).
Proof.
  revert a. induction hs as [|h hs IH]; intros a; [done|].
  cbn [TrackAll]. apply same_effect_bind; [apply Track_same_effect|].
  intros _ b. apply IH.
Qed.

(** C9.  A replay is a function of the starting correlator and the
    history.  Two replays of one history from one starting correlator,
    whatever each of them prints for the pending signals, both panic or
    both return, leave the same four indices, and so give the same results
    for every lookup and every attempt count afterwards. *)
Theorem replay_deterministic p1 p2 hs a :
  let r1 := TrackAll p1 hs a in
  let r2 := TrackAll p2 hs a in
  panics r1 = panics r2
  ∧ final r1 = final r2
  ∧ (∀ h, EventCorrelator_ActivityInfo h (final r1)
          = EventCorrelator_ActivityInfo h (final r2))
  ∧ (∀ h, EventCorrelator_SignalInfo h (final r1)
          = EventCorrelator_SignalInfo h (final r2))
  ∧ (∀ info, AttemptsForActivity info (final r1)
             = AttemptsForActivity info (final r2))
  ∧ (∀ info, AttemptsForSignal info (final r1)
             = AttemptsForSignal info (final r2)).
Proof.
  intros r1 r2.
  destruct (TrackAll_same_effect p1 p2 hs a) as [Hv Hf].
  fold r1 r2 in Hv, Hf. rewrite Hf.
  split_and!; try done.
  by destruct r1, r2.
Qed.

(** * The whole of [Track] *)

(** ** Every call has one of eight outcomes *)

(** Show that the run in the goal is [st], by computation and case analysis
    on the lookups of pending entries. *)
Ltac run_as st :=
  match goal with
  | |- Track_outcome _ _ _ ?r =>
      let H := fresh in
      assert (r = st) as H
        by (go; repeat (case_match; simplify_eq; go); done);
      rewrite H; clear H
  end.

Lemma Track_has_outcome p h a : Track_outcome p a h (Track p h a).
Proof.
  destruct h as [[ty|] eid s c f t cn i sg sf];
    [|go; apply outcome_panic; by left].
  destruct (decide (ty = swf.EventTypeActivityTaskScheduled)) as [->|?].
  { destruct eid as [z|], s as [[[aid|] aty]|]; go;
      first [by apply outcome_scheduled | apply outcome_panic; by left]. }
  destruct (decide
    (ty = swf.EventTypeSignalExternalWorkflowExecutionInitiated)) as [->|?].
  { destruct eid as [z|], i as [[[name|] [wid|]]|]; go;
      first [by apply (outcome_initiated p a _ z
                          {| SignalName := name; WorkflowID := wid |})
            | apply outcome_panic; by left]. }
  destruct (decide (ty = swf.EventTypeActivityTaskCompleted)) as [->|?].
  { destruct c as [[[k|]]|]; [|go; apply outcome_panic; by left..].
    run_as (Ok tt
      {| Activities := Some (delete (FormatInt k) (activities a));
         ActivityAttempts :=
           Some (delete (pending_activity_id (activities a) (FormatInt k))
                   (activityAttempts a));
         Signals := Some (signals a);
         SignalAttempts := Some (signalAttempts a) |} []).
    eapply outcome_cleared; [done|apply list_elem_of_here]. }
  destruct (decide (ty = swf.EventTypeActivityTaskFailed)) as [->|?].
  { destruct f as [[[k|]]|]; [|go; apply outcome_panic; by left..].
    run_as (Ok tt
      {| Activities := Some (delete (FormatInt k) (activities a));
         ActivityAttempts :=
           Some (bump (pending_activity_id (activities a) (FormatInt k))
                   (activityAttempts a));
         Signals := Some (signals a);
         SignalAttempts := Some (signalAttempts a) |} []).
    eapply outcome_counted; [done|apply list_elem_of_here]. }
  destruct (decide (ty = swf.EventTypeActivityTaskTimedOut)) as [->|?].
  { destruct t as [[[k|]]|]; [|go; apply outcome_panic; by left..].
    run_as (Ok tt
      {| Activities := Some (delete (FormatInt k) (activities a));
         ActivityAttempts :=
           Some (bump (pending_activity_id (activities a) (FormatInt k))
                   (activityAttempts a));
         Signals := Some (signals a);
         SignalAttempts := Some (signalAttempts a) |} []).
    eapply outcome_counted; [done|apply list_elem_of_further, list_elem_of_here]. }
  destruct (decide (ty = swf.EventTypeActivityTaskCanceled)) as [->|?].
  { destruct cn as [[[k|]]|]; [|go; apply outcome_panic; by left..].
    run_as (Ok tt
      {| Activities := Some (delete (FormatInt k) (activities a));
         ActivityAttempts :=
           Some (delete (pending_activity_id (activities a) (FormatInt k))
                   (activityAttempts a));
         Signals := Some (signals a);
         SignalAttempts := Some (signalAttempts a) |} []).
    eapply outcome_cleared; [done|apply list_elem_of_further, list_elem_of_here]. }
  destruct (decide (ty = swf.EventTypeExternalWorkflowExecutionSignaled))
    as [->|?].
  { destruct sg as [[[k|]]|]; [|go; apply outcome_panic; by left..].
    destruct (signals a !! FormatInt k) as [[info|]|] eqn:Hk.
    - run_as (Ok tt
        {| Activities := Some (activities a);
           ActivityAttempts := Some (activityAttempts a);
           Signals := Some (delete (FormatInt k) (signals a));
           SignalAttempts :=
             Some (delete (SignalName info +:+ "->" +:+ WorkflowID info)
                     (signalAttempts a)) |} []).
      by apply outcome_signaled.
    - run_as (@Panic unit (init a) []). apply outcome_panic. right.
      split; [done|]. exists k. by rewrite Hk.
    - run_as (@Panic unit (init a) []). apply outcome_panic. right.
      split; [done|]. exists k. by rewrite Hk. }
  destruct (decide
    (ty = swf.EventTypeSignalExternalWorkflowExecutionFailed)) as [->|?].
  { destruct sf as [[[k|]]|]; [|go; apply outcome_panic; by left..].
    run_as (Ok tt
      {| Activities := Some (activities a);
         ActivityAttempts := Some (activityAttempts a);
         Signals := Some (delete (FormatInt k) (signals a));
         SignalAttempts :=
           Some (bump (pending_signal_id (signals a) (FormatInt k))
                   (signalAttempts a)) |} []).
    by apply outcome_signal_counted. }
  go. apply (outcome_ignored _ _ _ ty); [done|].
  unfold recognized. rewrite !not_elem_of_cons.
  split_and!; try done. apply not_elem_of_nil.
Qed.

(** ** Panics *)

(** X1.  Whatever the event and the correlator, a call of [Track] that
    panics has printed nothing and has changed nothing that the indices
    hold: it leaves the correlator that [checkInit] leaves. *)
Theorem Track_panic_changes_nothing p h a :
  panics (Track p h a) = true →
  Track p h a = Panic (init a) []
  ∧ activities (final (Track p h a)) = activities a
  ∧ activityAttempts (final (Track p h a)) = activityAttempts a
  ∧ signals (final (Track p h a)) = signals a
  ∧ signalAttempts (final (Track p h a)) = signalAttempts a.
Proof.
  intros Hp. destruct (Track_has_outcome p h a); try discriminate. done.
Qed.

Lemma Track_panic_changes_nothing_witness :
  panics (Track fmt_elided (execution_signaled 2 1) five_attempts) = true
  ∧ Track fmt_elided (execution_signaled 2 1) five_attempts
    = Panic five_attempts [].
Proof.
  assert (H : panics (Track fmt_elided (execution_signaled 2 1) five_attempts)
              = true) by reflexivity.
  split; [exact H|].
  exact (proj1 (Track_panic_changes_nothing fmt_elided _ five_attempts H)).
Defined.

(** X2.  On an event whose payload is present, [Track] panics in one case
    only: the event is a signaled event and the lookup of the pending signal
    under its initiating event id gives nil. *)
Theorem Track_panics_iff p h a :
  payload_present h = true →
  panics (Track p h a) = true ↔ signaled_unmatched a h.
Proof.
  intros Hh. split.
  - intros Hp. destruct (Track_has_outcome p h a) as [[Hm|Hu]| | | | | | |];
      try discriminate; [congruence | done].
  - intros [Hty (k & Hk & Hnil)].
    destruct h as [[ty|] eid s c f t cn i sg sf]; [|done].
    cbn in Hty, Hk. simplify_eq. destruct sg as [[[k'|]]|]; simplify_eq/=.
    go. destruct (signals a !! FormatInt k) as [[?|]|]; simplify_eq/=; go; done.
Qed.

Lemma Track_panics_iff_witness :
  payload_present (execution_signaled 2 1) = true
  ∧ signaled_unmatched fresh (execution_signaled 2 1)
  ∧ panics (Track fmt_elided (execution_signaled 2 1) fresh) = true.
Proof.
  assert (H : payload_present (execution_signaled 2 1) = true) by reflexivity.
  assert (Hu : signaled_unmatched fresh (execution_signaled 2 1)).
  { split; [reflexivity|]. exists 1. split; reflexivity. }
  split; [exact H|]. split; [exact Hu|].
  exact (proj2 (Track_panics_iff fmt_elided _ fresh H) Hu).
Defined.

(** ** What every replay keeps *)

Lemma TrackAll_preserves (P : EventCorrelator → Prop) p hs :
  (∀ h, preserves P (Track p h)) → preserves P (TrackAll p hs).
Proof.
  intros H. induction hs as [|h hs IH]; [apply preserves_ret|].
  apply preserves_bind; [apply H | intros _; apply IH].
Qed.

Lemma bump_lookup_empty id m : m !! "" = None → bump id m !! "" = None.
Proof.
  intros H. unfold bump. case_decide; [|done]. by rewrite lookup_insert_ne.
Qed.

Lemma Track_counters_named p h : preserves counters_named (Track p h).
Proof.
  intros a [Ha Hs].
  destruct (Track_has_outcome p h a); split; cbn; try done;
    first [ by apply bump_lookup_empty
          | by apply lookup_delete_None; right ].
Qed.

(** X3.  No replay records an attempt counter under the empty identity:
    if a correlator has no counter under the empty string in either counter
    index, then after any sequence of events, well-formed or not, whether
    the replay returns or panics, it still has none.  The zero value is such
    a correlator. *)
Theorem replay_keeps_counters_named p hs a :
  counters_named a → counters_named (final (TrackAll p hs a)).
Proof. apply TrackAll_preserves. intros h. apply Track_counters_named. Qed.

Lemma replay_keeps_counters_named_witness :
  counters_named zero_value
  ∧ counters_named
      (final (TrackAll fmt_elided
                [activity_scheduled 10 "a1" foo_1; activity_failed 11 10;
                 signal_initiated 12 "N" "W"; signal_failed 13 12]
                zero_value)).
Proof.
  assert (H : counters_named zero_value) by (split; reflexivity).
  split; [exact H|].
  exact (replay_keeps_counters_named fmt_elided _ zero_value H).
Defined.

Lemma Track_pending_keyed p h : preserves pending_keyed (Track p h).
Proof.
  intros a [Ha Hs].
  destruct (Track_has_outcome p h a); split; cbn; try done; intros k' v;
    rewrite ?lookup_insert, ?lookup_delete; repeat case_decide;
    intros; simplify_eq; eauto.
Qed.

(** X4.  Every replay keeps the pending indices well keyed: if every
    pending activity and every pending signal of a correlator is a non-nil
    info stored under the decimal rendering of an event id, then so it is
    after any sequence of events, well-formed or not, whether the replay
    returns or panics.  The zero value is such a correlator. *)
Theorem replay_keeps_pending_keyed p hs a :
  pending_keyed a → pending_keyed (final (TrackAll p hs a)).
Proof. apply TrackAll_preserves. intros h. apply Track_pending_keyed. Qed.

Lemma replay_keeps_pending_keyed_witness :
  pending_keyed zero_value
  ∧ pending_keyed
      (final (TrackAll fmt_elided
                [activity_scheduled 10 "a1" foo_1;
                 signal_initiated 12 "N" "W"] zero_value)).
Proof.
  assert (H : pending_keyed zero_value).
  { split; intros k v Hk; cbn in Hk; rewrite lookup_empty in Hk;
      discriminate Hk. }
  split; [exact H|].
  exact (replay_keeps_pending_keyed fmt_elided _ zero_value H).
Defined.

(** ** What an event leaves alone *)

Lemma FormatInt_inj z1 z2 : FormatInt z1 = FormatInt z2 → z1 = z2.
Proof. apply (inj pretty). Qed.

(** X5.  Distinct event ids never share a pending slot: tracking any of
    the eight events that carry event id [k] (as their own id when they
    establish a correlation, as the id of their origin when they resolve
    one) leaves the pending activity and the pending signal under every
    other event id [z] as they were. *)
Theorem other_event_ids_untouched p a k e aid ty name wid h z :
  h ∈ events_about k e aid ty name wid →
  z ≠ k →
  activities (final (Track p h a)) !! FormatInt z
    = activities a !! FormatInt z
  ∧ signals (final (Track p h a)) !! FormatInt z
    = signals a !! FormatInt z.
Proof.
  intros Hh Hz.
  assert (Hne : FormatInt k ≠ FormatInt z)
    by (intros Heq; apply FormatInt_inj in Heq; congruence).
  destruct (Track_signal_initiated p a k name wid) as [line Hinit].
  in_list Hh.
  - rewrite Track_activity_scheduled. cbn. by rewrite lookup_insert_ne.
  - rewrite Track_activity_completed. cbn. by rewrite lookup_delete_ne.
  - rewrite Track_activity_failed. cbn. by rewrite lookup_delete_ne.
  - rewrite Track_activity_timed_out. cbn. by rewrite lookup_delete_ne.
  - rewrite Track_activity_canceled. cbn. by rewrite lookup_delete_ne.
  - rewrite Hinit. cbn. by rewrite lookup_insert_ne.
  - destruct (signals a !! FormatInt k) as [[info|]|] eqn:Hk.
    + rewrite (Track_execution_signaled _ _ _ _ _ Hk). cbn.
      by rewrite lookup_delete_ne.
    + by rewrite Track_execution_signaled_nil by by rewrite Hk.
    + by rewrite Track_execution_signaled_nil by by rewrite Hk.
  - rewrite Track_signal_failed. cbn. by rewrite lookup_delete_ne.
Qed.

Lemma other_event_ids_untouched_witness :
  activity_completed 21 20 ∈ events_about 20 21 "a1" foo_1 "N" "W"
  ∧ 10 ≠ 20
  ∧ activities
      (final (Track fmt_elided (activity_completed 21 20)
                (final (TrackAll fmt_elided
                          [activity_scheduled 10 "a1" foo_1;
                           activity_scheduled 20 "a2" foo_1] zero_value))))
      !! FormatInt 10
    = Some (Some a1_info).
Proof.
  assert (H1 : activity_completed 21 20
               ∈ events_about 20 21 "a1" foo_1 "N" "W")
    by apply list_elem_of_further, list_elem_of_here.
  assert (H2 : 10 ≠ 20) by discriminate.
  split; [exact H1|]. split; [exact H2|].
  exact (eq_trans
    (proj1 (other_event_ids_untouched fmt_elided _ 20 21 "a1" foo_1 "N" "W"
              _ 10 H1 H2))
    eq_refl).
Defined.

(** X6.  A terminal event touches at most the counter of the identity it
    resolves.  For a terminal event of an activity that refers to [k], the
    attempt counter of every activity id other than the one found through
    the pending entry under [k] is as before; for a terminal event of a
    signal, likewise the counter of every other signal identity. *)
Theorem other_identities_untouched p a k e h s x :
  h ∈ activity_terminals e k →
  s ∈ signal_terminals e k →
  (x ≠ pending_activity_id (activities a) (FormatInt k) →
   activityAttempts (final (Track p h a)) !! x = activityAttempts a !! x)
  ∧ (x ≠ pending_signal_id (signals a) (FormatInt k) →
     signalAttempts (final (Track p s a)) !! x = signalAttempts a !! x).
Proof.
  intros Hh Hs. split; intros Hx.
  - in_list Hh;
      [rewrite Track_activity_completed | rewrite Track_activity_failed
      | rewrite Track_activity_timed_out | rewrite Track_activity_canceled];
      cbn; unfold bump; repeat case_decide;
      by rewrite ?lookup_delete_ne, ?lookup_insert_ne.
  - in_list Hs.
    + destruct (signals a !! FormatInt k) as [[info|]|] eqn:Hk.
      * rewrite (Track_execution_signaled _ _ _ _ _ Hk). cbn.
        unfold pending_signal_id in Hx. rewrite Hk in Hx.
        by rewrite lookup_delete_ne.
      * by rewrite Track_execution_signaled_nil by by rewrite Hk.
      * by rewrite Track_execution_signaled_nil by by rewrite Hk.
    + rewrite Track_signal_failed. cbn. unfold bump. case_decide; [|done].
      by rewrite lookup_insert_ne.
Qed.

Lemma other_identities_untouched_witness :
  activity_failed 11 10 ∈ activity_terminals 11 10
  ∧ signal_failed 11 10 ∈ signal_terminals 11 10
  ∧ "a1" ≠ pending_activity_id (activities fresh) (FormatInt 10)
  ∧ activityAttempts (final (Track fmt_elided (activity_failed 11 10) fresh))
      !! "a1"
    = activityAttempts fresh !! "a1".
Proof.
  assert (H1 : activity_failed 11 10 ∈ activity_terminals 11 10)
    by apply list_elem_of_further, list_elem_of_here.
  assert (H2 : signal_failed 11 10 ∈ signal_terminals 11 10)
    by apply list_elem_of_further, list_elem_of_here.
  assert (H3 : "a1" ≠ pending_activity_id (activities fresh) (FormatInt 10))
    by discriminate.
  split; [exact H1|]. split; [exact H2|]. split; [exact H3|].
  exact (proj1 (other_identities_untouched fmt_elided fresh 10 11 _ _ "a1"
                  H1 H2) H3).
Defined.

(** X7.  Activities and signals are kept apart.  An event of one of the
    five activity types, whatever its payload, leaves the pending signals
    and the signal attempt counters as they were and prints nothing; an
    event of one of the three signal types leaves the pending activities
    and the activity attempt counters as they were. *)
Theorem families_are_separate p h a ty :
  swf.EventType h = Some ty →
  (ty ∈ activity_kinds →
   signals (final (Track p h a)) = signals a
   ∧ signalAttempts (final (Track p h a)) = signalAttempts a
   ∧ output (Track p h a) = [])
  ∧ (ty ∈ signal_kinds →
     activities (final (Track p h a)) = activities a
     ∧ activityAttempts (final (Track p h a)) = activityAttempts a).
Proof.
  intros Hty. split; intros Hk; in_list Hk;
    destruct (Track_has_outcome p h a);
    repeat match goal with
           | H : _ ∈ _ :: _ |- _ => in_list H
           | H : _ ∉ recognized |- _ =>
               exfalso; apply H; rewrite Hty in *; simplify_eq;
               unfold recognized; set_solver
           end;
    simplify_eq; done.
Qed.

Lemma families_are_separate_witness :
  swf.EventType (activity_failed 11 10) = Some swf.EventTypeActivityTaskFailed
  ∧ swf.EventTypeActivityTaskFailed ∈ activity_kinds
  ∧ signals (final (Track fmt_elided (activity_failed 11 10) five_attempts))
    = signals five_attempts.
Proof.
  assert (H1 : swf.EventType (activity_failed 11 10)
               = Some swf.EventTypeActivityTaskFailed) by reflexivity.
  assert (H2 : swf.EventTypeActivityTaskFailed ∈ activity_kinds)
    by apply list_elem_of_further, list_elem_of_further, list_elem_of_here.
  split; [exact H1|]. split; [exact H2|].
  exact (proj1 (proj1 (families_are_separate fmt_elided _ five_attempts _ H1)
                  H2)).
Defined.

(** ** Events that come twice *)

Lemma pending_activity_id_delete acts k :
  pending_activity_id (delete k acts) k = "".
Proof. unfold pending_activity_id. by rewrite lookup_delete_eq. Qed.

Lemma pending_signal_id_delete sigs k :
  pending_signal_id (delete k sigs) k = "".
Proof. unfold pending_signal_id. by rewrite lookup_delete_eq. Qed.

(** X8.  A failure is counted once: tracking an activity failed, activity
    timed out or signal delivery failed event a second time, right after the
    first, changes nothing; the pending entry is gone, so the second call
    finds no identity to count. *)
Theorem repeated_failure_counted_once p a e k h :
  h ∈ [activity_failed e k; activity_timed_out e k; signal_failed e k] →
  (Track p h;; Track p h) a = Track p h a.
Proof.
  intros Hh. unfold mbind, go_bind.
  in_list Hh;
    [rewrite !Track_activity_failed | rewrite !Track_activity_timed_out
    | rewrite !Track_signal_failed];
    autorewrite with corr;
    rewrite ?pending_activity_id_delete, ?pending_signal_id_delete;
    by rewrite delete_delete_eq.
Qed.

Lemma repeated_failure_counted_once_witness :
  activity_failed 11 10
    ∈ [activity_failed 11 10; activity_timed_out 11 10; signal_failed 11 10]
  ∧ (Track fmt_elided (activity_failed 11 10);;
     Track fmt_elided (activity_failed 11 10)) two_pending
    = Track fmt_elided (activity_failed 11 10) two_pending
  ∧ value ((Track fmt_elided (activity_failed 11 10);;
            Track fmt_elided (activity_failed 11 10);;
            AttemptsForActivity (Some a1_info)) two_pending)
    = Some 1.
Proof.
  assert (H : activity_failed 11 10
              ∈ [activity_failed 11 10; activity_timed_out 11 10;
                 signal_failed 11 10]) by apply list_elem_of_here.
  split; [exact H|].
  split; [exact (repeated_failure_counted_once fmt_elided two_pending
                   11 10 _ H) | reflexivity].
Defined.

(** X9.  The last event under an event id wins: when a second scheduling
    event (or signal initiation) is tracked under an event id that is
    already pending, it replaces the entry, and the correlator is the one
    that the second event alone would have left. *)
Theorem rescheduling_replaces_entry p a k aid1 ty1 aid2 ty2 n1 w1 n2 w2 :
  final ((Track p (activity_scheduled k aid1 ty1);;
          Track p (activity_scheduled k aid2 ty2)) a)
    = final (Track p (activity_scheduled k aid2 ty2) a)
  ∧ final ((Track p (signal_initiated k n1 w1);;
            Track p (signal_initiated k n2 w2)) a)
    = final (Track p (signal_initiated k n2 w2) a)
  ∧ activities (final ((Track p (activity_scheduled k aid1 ty1);;
                        Track p (activity_scheduled k aid2 ty2)) a))
      !! FormatInt k
    = Some (Some {| ActivityID := aid2; ActivityType := ty2 |}).
Proof.
  assert (H1 : final ((Track p (activity_scheduled k aid1 ty1);;
                       Track p (activity_scheduled k aid2 ty2)) a)
               = final (Track p (activity_scheduled k aid2 ty2) a)).
  { tracked Track_activity_scheduled. rewrite !Track_activity_scheduled.
    cbn [final]. autorewrite with corr. by rewrite insert_insert_eq. }
  split_and!; [exact H1| |].
  - destruct (Track_signal_initiated p a k n1 w1) as [l1 Hi1].
    destruct (Track_signal_initiated p a k n2 w2) as [l2 Hi2].
    rewrite (final_bind _ _ _ _ _ _ Hi1).
    match goal with
    | |- final (Track p _ ?st) = _ =>
        destruct (Track_signal_initiated p st k n2 w2) as [l3 Hi3];
        rewrite Hi3
    end.
    rewrite Hi2. cbn [final]. autorewrite with corr.
    by rewrite insert_insert_eq.
  - rewrite H1, Track_activity_scheduled. cbn [final].
    autorewrite with corr. apply lookup_insert_eq.
Qed.

(** ** Identities *)

Lemma string_app_assoc (x y z : string) : (x +:+ y) +:+ z = x +:+ (y +:+ z).
Proof.
  induction x as [|c x IH]; [done|].
  change (String c ((x +:+ y) +:+ z) = String c (x +:+ (y +:+ z))).
  by rewrite IH.
Qed.

Lemma string_app_grows (x y : string) : y ≠ "" → x +:+ y ≠ x.
Proof.
  intros Hy. induction x as [|c x IH]; [done|].
  change (String c (x +:+ y) ≠ String c x). congruence.
Qed.

(** X10.  The signal identity is the name and the workflow id joined by
    ["->"], without escaping, so two different signals can share one
    counter: the signal named [x->y] to workflow [z] and the signal named
    [x] to workflow [y->z] always have the same attempt count, and a failed
    delivery of the first raises the count of the second. *)
Theorem signal_identities_collide p a k e x y z :
  let s1 := {| SignalName := x +:+ "->" +:+ y; WorkflowID := z |} in
  let s2 := {| SignalName := x; WorkflowID := y +:+ "->" +:+ z |} in
  s1 ≠ s2
  ∧ AttemptsForSignal (Some s1) a = AttemptsForSignal (Some s2) a
  ∧ value ((Track p (signal_initiated k (x +:+ "->" +:+ y) z);;
            Track p (signal_failed e k);;
            AttemptsForSignal (Some s2)) a)
    = option_map int_incr (value (AttemptsForSignal (Some s2) a)).
Proof.
  intros s1 s2.
  assert (Hid : SignalName s1 +:+ "->" +:+ WorkflowID s1
                = SignalName s2 +:+ "->" +:+ WorkflowID s2)
    by (cbn [SignalName WorkflowID s1 s2]; by rewrite !string_app_assoc).
  split_and!.
  - intros Heq. apply (f_equal SignalName) in Heq. cbn in Heq.
    by apply string_app_grows in Heq.
  - by rewrite !AttemptsForSignal_run, Hid.
  - destruct (failed_signal_cycle_run p a k e (x +:+ "->" +:+ y) z)
      as [out Hrun].
    assert (Hassoc : ∀ {A} (m1 m2 : M unit) (f : M A) b,
               ((m1;; m2);; f) b = (m1;; m2;; f) b).
    { intros A m1 m2 f b. unfold mbind, go_bind.
      destruct (m1 b) as [[] b1 o1|]; [|done].
      destruct (m2 b1) as [[] b2 o2|]; [|done].
      destruct (f b2); by rewrite (assoc_L (++)). }
    rewrite <- Hassoc, (value_bind _ _ _ _ _ _ Hrun).
    rewrite !AttemptsForSignal_run. cbn [value option_map].
    autorewrite with corr. rewrite <- Hid. cbn [SignalName WorkflowID s1].
    by rewrite lookup_insert_eq.
Qed.

(** X11.  An activity whose activity id is the empty string is never
    counted: after it is scheduled and fails or times out, the activity
    attempt counters are what they were, and so is its attempt count. *)
Theorem empty_activity_id_not_counted p a k e ty ty' h :
  h ∈ activity_failures e k →
  activityAttempts
    (final ((Track p (activity_scheduled k "" ty);; Track p h) a))
    = activityAttempts a
  ∧ value ((Track p (activity_scheduled k "" ty);; Track p h;;
            AttemptsForActivity
              (Some {| ActivityID := ""; ActivityType := ty' |})) a)
    = value (AttemptsForActivity
               (Some {| ActivityID := ""; ActivityType := ty' |}) a).
Proof.
  intros Hh.
  assert (Hrun : ∀ b, Track p h b
    = Ok tt
        {| Activities := Some (delete (FormatInt k) (activities b));
           ActivityAttempts :=
             Some (bump (pending_activity_id (activities b) (FormatInt k))
                     (activityAttempts b));
           Signals := Some (signals b);
           SignalAttempts := Some (signalAttempts b) |} [])
    by (intros b; by apply (activity_failure_run _ _ e)).
  split.
  - tracked Track_activity_scheduled. rewrite Hrun. cbn [final].
    autorewrite with corr. by rewrite pending_activity_id_insert.
  - tracked Track_activity_scheduled. rewrite (value_bind _ _ _ _ _ _ (Hrun _)).
    rewrite !AttemptsForActivity_run. cbn [value]. autorewrite with corr.
    by rewrite pending_activity_id_insert.
Qed.

Lemma empty_activity_id_not_counted_witness :
  activity_failed 11 10 ∈ activity_failures 11 10
  ∧ activityAttempts
      (final ((Track fmt_elided (activity_scheduled 10 "" foo_1);;
               Track fmt_elided (activity_failed 11 10)) five_attempts))
    = activityAttempts five_attempts.
Proof.
  assert (H : activity_failed 11 10 ∈ activity_failures 11 10)
    by apply list_elem_of_here.
  split; [exact H|].
  exact (proj1 (empty_activity_id_not_counted fmt_elided five_attempts
                  10 11 foo_1 foo_1 _ H)).
Defined.

(** ** Nil maps, output, retries, lookups *)





Lemma failed_tries_run p aid tries :
  aid ≠ "" →
  ∀ a, ∃ a' out,
    TrackAll p (failed_tries aid tries) a = Ok tt a' out
    ∧ default 0 (activityAttempts a' !! aid)
      = Nat.iter (length tries) int_incr
          (default 0 (activityAttempts a !! aid)).
Proof.
  intros Hne. induction tries as [|[[[k e] ty] timed_out] tries IH];
    intros a; [by exists a, []|].
  assert (Hh : (if timed_out then activity_timed_out e k
                else activity_failed e k) ∈ activity_failures e k).
  { destruct timed_out;
      [apply list_elem_of_further, list_elem_of_here
      | apply list_elem_of_here]. }
  pose proof (failed_cycle_run p a k e aid ty _ Hne Hh) as Hc.
  match type of Hc with _ = Ok tt ?st _ => destruct (IH st) as (a' & out & Hrun & Hn) end.
  exists a', out. split.
  - change (failed_tries aid ((k, e, ty, timed_out) :: tries))
      with (activity_scheduled k aid ty
            :: (if timed_out then activity_timed_out e k
                else activity_failed e k) :: failed_tries aid tries).
    cbn [TrackAll]. unfold mbind, go_bind in Hc |- *.
    destruct (Track p (activity_scheduled k aid ty) a) as [[] b o|b o];
      [|discriminate].
    destruct (Track p _ b) as [[] b' o'|b' o']; [|discriminate].
    simplify_eq. rewrite Hrun. by destruct o, o'.
  - rewrite Hn. autorewrite with corr. rewrite lookup_insert_eq.
    cbn [default from_option id length]. by rewrite Nat.iter_succ_r.
Qed.

Lemma int_incr_iter (n : nat) (c : Z) :
  (0 ≤ c)%Z → c + Z.of_nat n < 2 ^ 63 →
  Nat.iter n int_incr c = c + Z.of_nat n.
Proof.
  intros Hc. induction n as [|n IH]; intros Hn; [cbn; lia|].
  rewrite Nat.iter_succ, IH by lia. unfold int_incr, int_wrap.
  rewrite Z.mod_small by lia. lia.
Qed.

(** X14.  The attempt count is the number of failures in a row: after an
    activity with a non-empty id has been scheduled and has failed or timed
    out [n] times, each time under event ids of its own, its count is the
    count before plus [n]; the sum is exact as long as it fits an [int],
    and wraps around beyond. *)
Theorem attempts_count_failures p a aid ty tries :
  aid ≠ "" →
  let info := {| ActivityID := aid; ActivityType := ty |} in
  let before := default 0 (activityAttempts a !! aid) in
  value (AttemptsForActivity (Some info) a) = Some before
  ∧ value ((TrackAll p (failed_tries aid tries);;
            AttemptsForActivity (Some info)) a)
    = Some (Nat.iter (length tries) int_incr before)
  ∧ ((0 ≤ before)%Z → before + Z.of_nat (length tries) < 2 ^ 63 →
     value ((TrackAll p (failed_tries aid tries);;
             AttemptsForActivity (Some info)) a)
     = Some (before + Z.of_nat (length tries))).
Proof.
  intros Hne info before.
  destruct (failed_tries_run p aid tries Hne a) as (a' & out & Hrun & Hn).
  assert (Hv : value ((TrackAll p (failed_tries aid tries);;
                       AttemptsForActivity (Some info)) a)
               = Some (Nat.iter (length tries) int_incr before)).
  { rewrite (value_bind _ _ _ _ _ _ Hrun), AttemptsForActivity_run.
    cbn [value ActivityID info]. by rewrite Hn. }
  split_and!; [by rewrite AttemptsForActivity_run | exact Hv |].
  intros H0 Hfit. by rewrite Hv, int_incr_iter.
Qed.

Lemma attempts_count_failures_witness :
  "a1" ≠ ""
  ∧ value ((TrackAll fmt_elided
              (failed_tries "a1"
                 [(10, 11, foo_1, false); (20, 21, foo_1, true);
                  (30, 31, foo_1, false)]);;
            AttemptsForActivity (Some a1_info)) five_attempts)
    = Some 8.
Proof.
  assert (H : "a1" ≠ "") by discriminate.
  split; [exact H|].
  exact (proj2 (proj2 (attempts_count_failures fmt_elided five_attempts "a1"
                         foo_1 [(10, 11, foo_1, false); (20, 21, foo_1, true);
                                (30, 31, foo_1, false)] H))
           ltac:(vm_compute; discriminate) ltac:(reflexivity)).
Defined.

Lemma pretty_N_go_nonempty x s : s ≠ "" → pretty_N_go x s ≠ "".
Proof.
  revert s. induction (N.lt_wf_0 x) as [x _ IH]; intros s Hs.
  destruct (decide (x = 0)%N) as [->|Hx]; [by rewrite pretty_N_go_0|].
  rewrite pretty_N_go_step by lia. apply IH; [apply N.div_lt; lia | done].
Qed.

(** The decimal rendering of an event id is never the empty string. *)
Lemma FormatInt_nonempty z : FormatInt z ≠ "".
Proof.
  destruct z as [|x|x]; [done| |done].
  unfold FormatInt, pretty, pretty_Z, pretty, pretty_positive, pretty,
    pretty_N.
  rewrite decide_False by done. rewrite pretty_N_go_step by done.
  by apply pretty_N_go_nonempty.
Qed.

(** For an event of a type that refers to no origin, [getID] returns the
    empty string. *)
Lemma getID_no_reference h ty a :
  swf.EventType h = Some ty →
  ty ∉ [swf.EventTypeActivityTaskCompleted; swf.EventTypeActivityTaskFailed;
        swf.EventTypeActivityTaskTimedOut; swf.EventTypeActivityTaskCanceled;
        swf.EventTypeExternalWorkflowExecutionSignaled;
        swf.EventTypeSignalExternalWorkflowExecutionFailed] →
  getID h a = Ok "" a [].
Proof.
  intros Hty Hn. destruct h as [ety eid s c f t cn i sg sf].
  cbn in Hty. subst ety. rewrite !not_elem_of_cons in Hn.
  destruct Hn as (?&?&?&?&?&?&_). go. reflexivity.
Qed.

(** X15.  The lookups answer nil for events that resolve nothing.  On a
    correlator whose pending entries are keyed by event ids (every
    correlator that a replay from the zero value leaves), [ActivityInfo]
    and [SignalInfo] applied to an event whose type is none of the six
    resolving kinds, a scheduling event for one, return nil: such an event
    is looked up under the empty key, which no entry has. *)
Theorem lookup_without_reference_is_nil h ty a :
  pending_keyed a →
  swf.EventType h = Some ty →
  ty ∉ [swf.EventTypeActivityTaskCompleted; swf.EventTypeActivityTaskFailed;
        swf.EventTypeActivityTaskTimedOut; swf.EventTypeActivityTaskCanceled;
        swf.EventTypeExternalWorkflowExecutionSignaled;
        swf.EventTypeSignalExternalWorkflowExecutionFailed] →
  EventCorrelator_ActivityInfo h a = Ok None (init a) []
  ∧ EventCorrelator_SignalInfo h a = Ok None (init a) [].
Proof.
  intros [Ha Hs] Hty Hn.
  pose proof (getID_no_reference h ty (init a) Hty Hn) as Hid.
  rewrite (ActivityInfo_run _ _ _ Hid), (SignalInfo_run _ _ _ Hid).
  assert (Hae : activities a !! "" = None).
  { destruct (activities a !! "") as [v|] eqn:E; [|done].
    destruct (Ha _ _ E) as (_ & z & Hz). by destruct (FormatInt_nonempty z). }
  assert (Hse : signals a !! "" = None).
  { destruct (signals a !! "") as [v|] eqn:E; [|done].
    destruct (Hs _ _ E) as (_ & z & Hz). by destruct (FormatInt_nonempty z). }
  by rewrite Hae, Hse.
Qed.

Lemma lookup_without_reference_is_nil_witness :
  pending_keyed two_pending
  ∧ EventCorrelator_ActivityInfo (activity_scheduled 10 "a1" foo_1) two_pending
    = Ok None two_pending [].
Proof.
  assert (H : pending_keyed two_pending).
  { split; intros k v Hk; cbn in Hk;
      apply lookup_singleton_Some in Hk as [<- <-].
    - split; [by eexists | by exists 10].
    - split; [by eexists | by exists 12]. }
  split; [exact H|].
  refine (proj1 (lookup_without_reference_is_nil
                   (activity_scheduled 10 "a1" foo_1) _ two_pending H
                   eq_refl _)).
  rewrite !not_elem_of_cons. split_and!; try discriminate.
  apply not_elem_of_nil.
Defined.

(** ** Lookup, then track, then count *)

Lemma activity_failures_terminals e k h :
  h ∈ activity_failures e k → h ∈ activity_terminals e k.
Proof.
  intros H. in_list H.
  - apply list_elem_of_further, list_elem_of_here.
  - apply list_elem_of_further, list_elem_of_further, list_elem_of_here.
Qed.

(** X16.  The way a decider uses the correlator: it looks up the info of a
    terminal event, tracks the event, then asks for the attempts of that
    info.  If the lookup for an activity terminal event that refers to [k]
    gives an info with a non-empty activity id, then after a failed or
    timed out event the count of that info is one more than before, and
    after a completed or canceled event it is 0.  If the lookup for a
    signal terminal event gives an info, then after the delivery failed
    event its count is one more than before, and after the signaled event
    it is 0. *)
Theorem attempts_after_resolution p a e k hf hs info sinfo :
  hf ∈ activity_failures e k →
  hs ∈ activity_successes e k →
  (value (EventCorrelator_ActivityInfo hf a) = Some (Some info) →
   ActivityID info ≠ "" →
   value ((Track p hf;; AttemptsForActivity (Some info)) a)
     = option_map int_incr (value (AttemptsForActivity (Some info) a))
   ∧ value ((Track p hs;; AttemptsForActivity (Some info)) a) = Some 0)
  ∧ (value (EventCorrelator_SignalInfo (signal_failed e k) a)
       = Some (Some sinfo) →
     value ((Track p (signal_failed e k);; AttemptsForSignal (Some sinfo)) a)
       = option_map int_incr (value (AttemptsForSignal (Some sinfo) a))
     ∧ value ((Track p (execution_signaled e k);;
               AttemptsForSignal (Some sinfo)) a)
       = Some 0).
Proof.
  intros Hf Hs. split.
  - intros Hlook Hne.
    rewrite (ActivityInfo_terminal a e k) in Hlook
      by by apply activity_failures_terminals.
    cbn [value] in Hlook.
    assert (Hk : activities a !! FormatInt k = Some (Some info))
      by (destruct (activities a !! FormatInt k); by simplify_eq/=).
    assert (Hid : pending_activity_id (activities a) (FormatInt k)
                  = ActivityID info)
      by (unfold pending_activity_id; by rewrite Hk).
    split.
    + rewrite (value_bind _ _ _ _ _ _ (activity_failure_run p a e k hf Hf)).
      rewrite !AttemptsForActivity_run. cbn [value option_map].
      autorewrite with corr. rewrite Hid. unfold bump.
      rewrite decide_True by done. by rewrite lookup_insert_eq.
    + in_list Hs;
        [tracked Track_activity_completed | tracked Track_activity_canceled];
        rewrite AttemptsForActivity_run; cbn [value]; autorewrite with corr;
        by rewrite Hid, lookup_delete_eq.
  - intros Hlook.
    rewrite (SignalInfo_terminal a e k) in Hlook
      by apply list_elem_of_further, list_elem_of_here.
    cbn [value] in Hlook.
    assert (Hk : signals a !! FormatInt k = Some (Some sinfo))
      by (destruct (signals a !! FormatInt k); by simplify_eq/=).
    split.
    + tracked Track_signal_failed.
      rewrite !AttemptsForSignal_run. cbn [value option_map].
      autorewrite with corr. unfold pending_signal_id. rewrite Hk.
      unfold bump. rewrite decide_True by apply signal_id_nonempty.
      by rewrite lookup_insert_eq.
    + rewrite (value_bind _ _ _ _ _ _
                 (Track_execution_signaled p a e k sinfo Hk)).
      rewrite AttemptsForSignal_run. cbn [value]. autorewrite with corr.
      by rewrite lookup_delete_eq.
Qed.

Lemma attempts_after_resolution_witness :
  activity_failed 11 10 ∈ activity_failures 11 10
  ∧ activity_completed 11 10 ∈ activity_successes 11 10
  ∧ value (EventCorrelator_ActivityInfo (activity_failed 11 10) two_pending)
    = Some (Some a1_info)
  ∧ ActivityID a1_info ≠ ""
  ∧ value ((Track fmt_elided (activity_failed 11 10);;
            AttemptsForActivity (Some a1_info)) two_pending)
    = Some 1
  ∧ value ((Track fmt_elided (activity_completed 11 10);;
            AttemptsForActivity (Some a1_info)) two_pending)
    = Some 0.
Proof.
  assert (H1 : activity_failed 11 10 ∈ activity_failures 11 10)
    by apply list_elem_of_here.
  assert (H2 : activity_completed 11 10 ∈ activity_successes 11 10)
    by apply list_elem_of_here.
  assert (H3 : value (EventCorrelator_ActivityInfo (activity_failed 11 10)
                        two_pending) = Some (Some a1_info)) by reflexivity.
  assert (H4 : ActivityID a1_info ≠ "") by discriminate.
  split; [exact H1|]. split; [exact H2|]. split; [exact H3|].
  split; [exact H4|].
  exact (proj1 (attempts_after_resolution fmt_elided two_pending 11 10 _ _
                  a1_info N_W_info H1 H2) H3 H4).
Defined.
